(** * The DAP function response cache

  A shallow embedding of [dap/BESDapFunctionResponseCache.cc]: the
  resource identifier and the cacheability test, the validity test
  [is_valid], the suffix probing of [load_from_cache], the decoder
  [read_cached_data], the writer [write_dataset_to_cache] and the
  orchestrator [get_or_cache_dataset].

  C++ exceptions are results [Ok]/[Throw] threaded through a state
  monad over a [world]: the cache directory, the locks this process
  holds, the accounting record, and the calls made so far. *)

From Stdlib Require Import ZArith NArith Ascii String DecimalString Lia.
From stdpp Require Import base option list gmap strings sorting.

Local Open Scope string_scope.
Set Warnings "-register-all".

(** ** Strings and input streams *)

Module Strm.

(** The state of a [std::istream]: the unread characters, eofbit, failbit. *)
Record istream := mk_istream { is_buf : string; is_eof : bool; is_fail : bool }.

Definition good (s : istream) : bool := negb (is_eof s) && negb (is_fail s).

Definition newline : ascii := "010"%char.
Definition nul : ascii := "000"%char.
Definition endl : string := String newline "".

Inductive stop := at_eof | at_delim | at_full.

(** The extraction loop of [istream::getline(s, n)] with [room = n - 1]
    characters left in the buffer. The stopping conditions are tested in
    the order of the standard: end of file, then the delimiter (extracted,
    not stored), then a full buffer. *)
Fixpoint extract_line (buf : string) (room : nat) : string * string * stop :=
  match buf with
  | "" => ("", "", at_eof)
  | String c rest =>
      if Ascii.eqb c newline then ("", rest, at_delim)
      else match room with
           | O => ("", buf, at_full)
           | S room' =>
               let '(l, r, st) := extract_line rest room' in (String c l, r, st)
           end
  end.

(** [istream::getline(line, n)] for [n > 0]: the characters stored in
    [line] and the stream afterwards. A stream that is not good extracts
    nothing and sets failbit; so does a call that extracts no character. *)
Definition getline (s : istream) (n : nat) : string * istream :=
  if good s then
    let '(l, r, st) := extract_line (is_buf s) (n - 1) in
    match st with
    | at_eof => (l, mk_istream r true (if l is "" then true else false))
    | at_delim => (l, mk_istream r false false)
    | at_full => (l, mk_istream r false true)
    end
  else ("", mk_istream (is_buf s) (is_eof s) true).

(** A [char] buffer read as a C string: the characters before the first NUL. *)
Fixpoint c_str (line : string) : string :=
  match line with
  | "" => ""
  | String c rest => if Ascii.eqb c nul then "" else String c (c_str rest)
  end.

(** [ostream << n] for an unsigned integer. *)
Definition decimal (n : N) : string := NilZero.string_of_uint (N.to_uint n).

(** The first line of a text: the characters before the first newline. *)
Fixpoint first_line (text : string) : string :=
  match text with
  | "" => ""
  | String c rest => if Ascii.eqb c newline then "" else String c (first_line rest)
  end.

Fixpoint has_char (c : ascii) (s : string) : bool :=
  match s with
  | "" => false
  | String d rest => Ascii.eqb c d || has_char c rest
  end.

End Strm.
Export Strm.

(** ** Exceptions *)

Inductive exn :=
| libdap_Error (msg : string)       (* libdap::Error and its subclasses *)
| BESInternalError (msg : string)
| other_exception (what : string).  (* any other C++ exception *)

Inductive result (A : Type) :=
| Ok (a : A)
| Throw (e : exn).
Arguments Ok {A} a.
Arguments Throw {A} e.

(** ** The data-model library's dataset *)

Module Dap.

Inductive Type_ :=
| dods_null_c | dods_byte_c | dods_int16_c | dods_uint16_c | dods_int32_c
| dods_uint32_c | dods_float32_c | dods_float64_c | dods_str_c | dods_url_c
| dods_structure_c | dods_array_c | dods_sequence_c | dods_grid_c.

#[global] Instance Type_eq_dec : EqDecision Type_.
Proof. solve_decision. Defined.

(** Modelled from the spec: the variable of the data-model library (spec
    section 6), which is not part of this repository's sources: its type
    tag, the flags behind [read_p()], [send_p()], its value bytes, the
    current row number of a row-oriented variable and, for constructor
    types, the member variables. *)
Inductive BaseType := mk_BaseType {
  name : string;
  type : Type_;
  read_p : bool;
  send_p : bool;
  value : string;
  row_number : Z;
  members : list BaseType
}.

Definition set_read_p (state : bool) (v : BaseType) : BaseType :=
  mk_BaseType (name v) (type v) state (send_p v) (value v) (row_number v) (members v).

Definition set_send_p (state : bool) (v : BaseType) : BaseType :=
  mk_BaseType (name v) (type v) (read_p v) state (value v) (row_number v) (members v).

(** The row number of a sequence no row of which has been read. *)
Definition no_row : Z := (-1)%Z.

(** Modelled from the spec: [Sequence::reset_row_number(recursive)] puts
    the current row number back to its initial value; the recursive
    version does the same in every sequence nested in the variable. *)
Fixpoint reset_row_number (recur : bool) (v : BaseType) : BaseType :=
  match v with
  | mk_BaseType n t r s x _ ms =>
      mk_BaseType n t r s x no_row
        (if recur
         then map (fun m => if decide (type m = dods_sequence_c)
                            then reset_row_number true m else m) ms
         else ms)
  end.

(** Every sequence met from [v] down through nested sequences is at its
    initial row. *)
Fixpoint rows_reset (v : BaseType) : bool :=
  match v with
  | mk_BaseType _ t _ _ _ row ms =>
      (if decide (t = dods_sequence_c) then bool_decide (row = no_row) else true)
      && forallb (fun m => if decide (type m = dods_sequence_c)
                           then rows_reset m else true) ms
  end.

Record DDS := mk_DDS { filename : string; vars : list BaseType }.

Definition set_filename (fn : string) (d : DDS) : DDS := mk_DDS fn (vars d).

End Dap.
Export Dap.

(** ** The file-locking cache substrate *)

Module Substrate.

(** A file of the host: content, modification time, the access time the
    purge orders entries by, and whether this process may open it for
    writing. *)
Record file := mk_file { f_data : string; f_mtime : Z; f_atime : Z; f_writable : bool }.

Inductive lock := Shared | Exclusive.

#[global] Instance lock_eq_dec : EqDecision lock.
Proof. solve_decision. Defined.

(** What another process does to the file system between two calls of ours. *)
Inductive action :=
| env_idle
| env_create (name : string) (f : file)
| env_remove (name : string)
| env_touch (name : string) (t : Z)
| env_chmod (name : string) (writable : bool).

(** The calls this process makes, in the order it makes them. *)
Inductive call :=
| get_read_lock_call (name : string) (held : bool)
| create_and_lock_call (name : string) (created : bool)
| exclusive_to_shared_lock_call (name : string)
| unlock_and_close_call (name : string)
| update_cache_info_call (name : string)
| update_and_purge_call (name : string)
| purge_file_call (name : string)
| ofstream_open_call (name : string) (opened : bool)
| ofstream_write_call (name : string) (text : string)
| ofstream_close_call (name : string)
| ifstream_open_call (name : string).

Record world := mk_world {
  fs : gmap string file;        (* the files, by path *)
  locks : gmap string lock;     (* the locks this process holds *)
  cache_info : N;               (* the accounting record: total bytes *)
  now : Z;                      (* the clock *)
  env : list action;            (* the other processes' pending steps *)
  trace : list call             (* the calls made so far, oldest first *)
}.

Definition set_fs (f : gmap string file) (w : world) : world :=
  mk_world f (locks w) (cache_info w) (now w) (env w) (trace w).
Definition set_locks (l : gmap string lock) (w : world) : world :=
  mk_world (fs w) l (cache_info w) (now w) (env w) (trace w).
Definition set_cache_info (n : N) (w : world) : world :=
  mk_world (fs w) (locks w) n (now w) (env w) (trace w).
Definition log (c : call) (w : world) : world :=
  mk_world (fs w) (locks w) (cache_info w) (now w) (env w) (trace w ++ [c]).

Definition apply_action (a : action) (files : gmap string file) : gmap string file :=
  match a with
  | env_idle => files
  | env_create n f => <[n := f]> files
  | env_remove n => delete n files
  | env_touch n t =>
      match files !! n with
      | Some f => <[n := mk_file (f_data f) t (f_atime f) (f_writable f)]> files
      | None => files
      end
  | env_chmod n b =>
      match files !! n with
      | Some f => <[n := mk_file (f_data f) (f_mtime f) (f_atime f) b]> files
      | None => files
      end
  end.

(** Before each call of ours the clock advances and the other processes
    take their next step, if they have one. *)
Definition tick (w : world) : world :=
  match env w with
  | [] => mk_world (fs w) (locks w) (cache_info w) (now w + 1) [] (trace w)
  | a :: rest =>
      mk_world (apply_action a (fs w)) (locks w) (cache_info w) (now w + 1) rest (trace w)
  end.

(** No other process is active. *)
Definition quiet (w : world) : Prop := env w = [].

(** The state-and-exception monad of the embedding. *)
Definition M (A : Type) : Type := world -> result A * world.

Definition ret {A} (a : A) : M A := fun w => (Ok a, w).
Definition throw {A} (e : exn) : M A := fun w => (Throw e, w).
Definition bind {A B} (m : M A) (k : A -> M B) : M B :=
  fun w => match m w with
           | (Ok a, w') => k a w'
           | (Throw e, w') => (Throw e, w')
           end.
(** [try { m } catch (...) { handler; throw; }] *)
Definition try_catch_all {A} (m : M A) (handler : M unit) : M A :=
  fun w => match m w with
           | (Ok a, w') => (Ok a, w')
           | (Throw e, w') =>
               match handler w' with
               | (Ok _, w'') => (Throw e, w'')
               | (Throw e', w'') => (Throw e', w'')
               end
           end.
Definition lift {A} (r : result A) : M A := fun w => (r, w).

Notation "'let*' x ':=' m 'in' k" := (bind m (fun x => k))
  (at level 10, x pattern, m at level 100, k at level 200).
Notation "m ';;' k" := (bind m (fun _ => k))
  (at level 100, k at level 200, right associativity).

(** *** [struct stat] *)
Record stat_buf := mk_stat { st_size : Z; st_mtime : Z }.

Definition stat (path : string) (w : world) : option stat_buf :=
  match fs w !! path with
  | Some f => Some (mk_stat (Z.of_nat (String.length (f_data f))) (f_mtime f))
  | None => None
  end.

(** *** The operations of [BESFileLockingCache]

    Modelled from the spec: the base class [BESFileLockingCache] is not
    among the sources; its operations follow section 4.1 of the
    specification. A blocking call returns when the lock is granted, and
    only this process's own locks are recorded. The errors of the file
    system that the operations report by an exception are left out: an
    operation returns as its description says. *)

(** Modelled from the spec: [get_read_lock(name)]: when the file does not
    exist, held is false and there is no error; otherwise a shared lock is
    obtained. *)
Definition get_read_lock (name : string) : M bool := fun w =>
  let w := tick w in
  match fs w !! name with
  | Some _ => (Ok true, log (get_read_lock_call name true) (set_locks (<[name := Shared]> (locks w)) w))
  | None => (Ok false, log (get_read_lock_call name false) w)
  end.

(** Modelled from the spec: [create_and_lock(name)]: creates a new, empty
    file under an exclusive lock; when the file already exists it returns
    false without error. *)
Definition create_and_lock (name : string) : M bool := fun w =>
  let w := tick w in
  match fs w !! name with
  | Some _ => (Ok false, log (create_and_lock_call name false) w)
  | None =>
      (Ok true,
       log (create_and_lock_call name true)
         (set_locks (<[name := Exclusive]> (locks w))
            (set_fs (<[name := mk_file "" (now w) (now w) true]> (fs w)) w)))
  end.

(** Modelled from the spec: [exclusive_to_shared_lock(fd)] downgrades
    without releasing; the descriptor is identified with the file's name. *)
Definition exclusive_to_shared_lock (fd : string) : M unit := fun w =>
  let w := tick w in
  (Ok tt,
   log (exclusive_to_shared_lock_call fd)
     (set_locks (match locks w !! fd with
                 | Some Exclusive => <[fd := Shared]> (locks w)
                 | _ => locks w
                 end) w)).

(** Modelled from the spec: [unlock_and_close(name)] releases whatever lock
    is held on the file and is idempotent. *)
Definition unlock_and_close (name : string) : M unit := fun w =>
  let w := tick w in
  (Ok tt, log (unlock_and_close_call name) (set_locks (delete name (locks w)) w)).

Definition file_size (name : string) (w : world) : N :=
  match fs w !! name with
  | Some f => N.of_nat (String.length (f_data f))
  | None => 0%N
  end.

(** Modelled from the spec: [update_cache_info(name)] adds the file's
    current size to the recorded total and returns the new total. *)
Definition update_cache_info (name : string) : M N := fun w =>
  let w := tick w in
  let total := (cache_info w + file_size name w)%N in
  (Ok total, log (update_cache_info_call name) (set_cache_info total w)).

(** Modelled from the spec: [purge_file(name)] is a best-effort unlink. *)
Definition purge_file (name : string) : M unit := fun w =>
  let w := tick w in
  (Ok tt, log (purge_file_call name) (set_fs (delete name (fs w)) w)).

(** *** File streams *)

(** [std::ofstream os(name)]: opens the file for writing, creating it when
    it is missing and truncating it otherwise; [is_open()] is the result. *)
Definition ofstream_open (name : string) : M bool := fun w =>
  let w := tick w in
  match fs w !! name with
  | Some f =>
      if f_writable f
      then (Ok true,
            log (ofstream_open_call name true)
              (set_fs (<[name := mk_file "" (now w) (f_atime f) true]> (fs w)) w))
      else (Ok false, log (ofstream_open_call name false) w)
  | None =>
      (Ok true,
       log (ofstream_open_call name true)
         (set_fs (<[name := mk_file "" (now w) (now w) true]> (fs w)) w))
  end.

(** [os << text] on the stream opened on [name]. The buffer of the
    stream is left out: the text is in the file when the call returns. *)
Definition ofstream_write (name text : string) : M unit := fun w =>
  let w := tick w in
  (Ok tt,
   log (ofstream_write_call name text)
     (match fs w !! name with
      | Some f =>
          set_fs (<[name := mk_file (f_data f +:+ text) (now w) (f_atime f) (f_writable f)]> (fs w)) w
      | None => w
      end)).

(** [os.close()], also what the stream's destructor does. *)
Definition ofstream_close (name : string) : M unit := fun w =>
  let w := tick w in (Ok tt, log (ofstream_close_call name) w).

(** [std::ifstream is(name)]: a stream on the file's content, or a failed
    stream when the file cannot be opened. The destruction of the stream,
    which closes its descriptor, is left out. *)
Definition ifstream_open (name : string) : M istream := fun w =>
  let w := tick w in
  (Ok (match fs w !! name with
       | Some f => mk_istream (f_data f) false false
       | None => mk_istream "" false true
       end),
   log (ifstream_open_call name) w).

End Substrate.
Export Substrate.

(** ** The collaborators of the cache

    The cache object's configuration, the platform's string hash, and the
    operations of the data-model library: the constraint evaluator, the
    descriptor emitter and parser, and the codec of the variables. Each
    operation that can raise returns a [result]; an operation that takes a
    dataset by non-const reference returns the dataset it leaves behind. *)
Class Collaborators := {
  d_prefix : string;
  d_size_mb : N;
  str_hash : string -> N;
  ConstraintEvaluator : Type;
  parse_constraint : string -> DDS -> result (ConstraintEvaluator * DDS);
  eval_function_clauses : ConstraintEvaluator -> DDS -> result (DDS * DDS);
  print_xml_writer : DDS -> bool -> string -> result string;
  serialize : BaseType -> DDS -> bool -> result string;
  intern_stream : istream -> DDS -> string -> result (DDS * istream);
  deserialize : BaseType -> istream -> result (BaseType * istream)
}.

Module Cache.
Section WithCollaborators.
Context `{Collaborators}.

(** *** The size-bounded part of the substrate *)

(** Modelled from the spec: [get_cache_file_name(src, mangle = false)]:
    the base name is the prefix followed by the decimal hash. *)
Definition get_cache_file_name (src : string) : string := d_prefix +:+ src.

(** Modelled from the spec: [cache_too_big(total)] iff
    [total > size_mb * 2^20]. *)
Definition cache_too_big (total : N) : bool := (d_size_mb * 2 ^ 20 <? total)%N.

(** The low-water mark of a purge: 80% of the high-water mark. *)
Definition low_water : N := (d_size_mb * 2 ^ 20 * 8 / 10)%N.

Definition older (a b : string * file) : Prop := (f_atime a.2 <= f_atime b.2)%Z.

#[local] Instance older_dec : RelDecision older.
Proof. intros a b. unfold older. apply _. Defined.

(** The entries a purge may delete, oldest access first: every entry but
    the exempt one and those this process holds a lock on. The entries
    are taken to be the files whose path begins with the prefix. *)
Definition purge_candidates (exempt : string) (w : world) : list (string * file) :=
  merge_sort older
    (filter (fun e => String.prefix d_prefix e.1 = true /\ e.1 <> exempt /\ locks w !! e.1 = None)
       (map_to_list (fs w))).

Fixpoint purge_loop (victims : list (string * file)) (total : N) (files : gmap string file)
  : N * gmap string file :=
  match victims with
  | [] => (total, files)
  | (n, f) :: rest =>
      if (total <=? low_water)%N then (total, files)
      else purge_loop rest (total - N.of_nat (String.length (f_data f)))%N (delete n files)
  end.

(** Modelled from the spec: [update_and_purge(exempt_name)] deletes entries
    in order of access time, skipping the exempt one, until the recorded
    total is at most the low-water mark, and rewrites the accounting
    record. *)
Definition update_and_purge (exempt : string) : M unit := fun w =>
  let w := tick w in
  let '(total, files) := purge_loop (purge_candidates exempt w) (cache_info w) (fs w) in
  (Ok tt, log (update_and_purge_call exempt) (set_cache_info total (set_fs files w))).

(** *** BESDapFunctionResponseCache.cc *)

Definition DATA_MARK : string := "--DATA:".

(** If the size of the constraint is larger then this value, don't cache
    the response. *)
Definition max_cacheable_ce_len : Z := 4096.
Definition max_collisions : N := 50.

(** [size_t] arithmetic: 64 bits, wrapping. *)
Definition size_t_add (a b : Z) : Z := ((a + b) mod 2 ^ 64)%Z.
Definition string_size (s : string) : Z := Z.of_nat (String.length s).

(** [is_valid(cache_file_name, dataset)] *)
Definition is_valid (cache_file_name dataset : string) (w : world) : bool :=
  match stat cache_file_name w with
  | Some buf =>
      let entry_size := st_size buf in
      let entry_time := st_mtime buf in
      if (entry_size =? 0)%Z then false
      else
        let dataset_time :=
          match stat dataset w with
          | Some buf' => st_mtime buf'
          | None => entry_time
          end in
        if (entry_time <? dataset_time)%Z then false else true
  | None => false
  end.

(** [get_resource_id(dds, constraint)] *)
Definition get_resource_id (dds : DDS) (constraint : string) : string :=
  filename dds +:+ "#" +:+ constraint.

(** [can_be_cached(dds, constraint)] *)
Definition can_be_cached (dds : DDS) (constraint : string) : bool :=
  (size_t_add (string_size constraint) (string_size (filename dds)) <=? max_cacheable_ce_len)%Z.

(** [read_cached_data(cached_data)]: the deserialize loop, the stream
    threaded through the variables in order. *)
Fixpoint deserialize_vars (vs : list BaseType) (um : istream)
  : result (list BaseType * istream) :=
  match vs with
  | [] => Ok ([], um)
  | v :: rest =>
      match deserialize v um with
      | Throw e => Throw e
      | Ok (v', um') =>
          match deserialize_vars rest um' with
          | Throw e => Throw e
          | Ok (rest', um'') => Ok (v' :: rest', um'')
          end
      end
  end.

(** The body of the second loop of [read_cached_data]. *)
Definition mark_read_and_to_send (v : BaseType) : BaseType :=
  let v := set_read_p true v in
  let v := set_send_p true v in
  if decide (type v = dods_sequence_c) then reset_row_number true v else v.

Definition read_cached_data (cached_data : istream) : result DDS :=
  let fdds := mk_DDS "" [] in
  match intern_stream cached_data fdds DATA_MARK with
  | Throw (libdap_Error msg) => Throw (BESInternalError msg)
  | Throw e => Throw e
  | Ok (fdds, cached_data) =>
      match deserialize_vars (vars fdds) cached_data with
      | Throw e => Throw e
      | Ok (vs, _) => Ok (mk_DDS (filename fdds) (map mark_read_and_to_send vs))
      end
  end.

Definition collisions_message (suffix_counter : N) (resource_id : string) : string :=
  "Cache error! There are " +:+ decimal suffix_counter
  +:+ " hash collisions for the resource '" +:+ resource_id
  +:+ "' And that is a bad bad thing.".

(** The do-while loop of [load_from_cache]. The result is the dataset, if
    one was loaded, and the value left in [cache_file_name]. The loop ends
    by itself once the counter passes [max_collisions]; [fuel] is the
    number of iterations granted. *)
Fixpoint load_from_cache_loop (fuel : nat) (resource_id cache_file_name : string)
  (suffix_counter : N) : M (option DDS * string) :=
  if (max_collisions <? suffix_counter)%N
  then throw (BESInternalError (collisions_message suffix_counter resource_id))
  else
    match fuel with
    | O => throw (other_exception "load_from_cache: loop not finished")
    | S fuel' =>
        let cfname := cache_file_name +:+ "_" +:+ decimal suffix_counter in
        let suffix_counter := (suffix_counter + 1)%N in
        let* held := get_read_lock cfname in
        if negb held then ret (None, cfname)
        else
          let* cache_file_istream := ifstream_open cfname in
          let '(line, cache_file_istream) :=
            getline cache_file_istream (Z.to_nat max_cacheable_ce_len) in
          let cached_resource_id := c_str line in
          let* cached_dds :=
            (if String.eqb cached_resource_id resource_id
             then let* d := lift (read_cached_data cache_file_istream) in ret (Some d)
             else ret None) in
          unlock_and_close cfname ;;
          match cached_dds with
          | Some d => ret (Some d, cache_file_name)
          | None => load_from_cache_loop fuel' resource_id cache_file_name suffix_counter
          end
    end.

(** [load_from_cache(resource_id, cache_file_name)]; [cache_file_name] is a
    value-result parameter. *)
Definition load_from_cache (resource_id cache_file_name : string)
  : M (option DDS * string) :=
  load_from_cache_loop (S (N.to_nat max_collisions)) resource_id cache_file_name 0.

(** The serialize loop of [write_dataset_to_cache]. *)
Fixpoint serialize_vars (vs : list BaseType) (dds : DDS) (cache_file_name : string)
  : M unit :=
  match vs with
  | [] => ret tt
  | v :: rest =>
      (if send_p v
       then let* bytes := lift (serialize v dds false) in
            ofstream_write cache_file_name bytes
       else ret tt) ;;
      serialize_vars rest dds cache_file_name
  end.

(** The [try] block of [write_dataset_to_cache]. *)
Definition write_dataset_to_cache_try (dds : DDS) (resource_id func_ce cache_file_name : string)
  : M (option DDS) :=
  ofstream_write cache_file_name resource_id ;;
  ofstream_write cache_file_name endl ;;
  let* (func_eval, dds) := lift (parse_constraint func_ce dds) in
  let* (fdds, dds) := lift (eval_function_clauses func_eval dds) in
  let* xml := lift (print_xml_writer dds true "") in
  ofstream_write cache_file_name xml ;;
  ofstream_write cache_file_name DATA_MARK ;;
  ofstream_write cache_file_name endl ;;
  serialize_vars (vars dds) dds cache_file_name ;;
  exclusive_to_shared_lock cache_file_name ;;
  let* size := update_cache_info cache_file_name in
  (if cache_too_big size then update_and_purge cache_file_name else ret tt) ;;
  unlock_and_close cache_file_name ;;
  ret (Some fdds).

(** The [catch (...)] block of [write_dataset_to_cache]; the handler ends
    in [throw;]. *)
Definition write_dataset_to_cache_catch (cache_file_name : string) : M unit :=
  ofstream_close cache_file_name ;;
  purge_file cache_file_name ;;
  unlock_and_close cache_file_name.

(** [write_dataset_to_cache(dds, resource_id, func_ce, eval, cache_file_name)];
    [eval] is not used by the function. The stream's destructor closes it
    when the block is left normally. *)
Definition write_dataset_to_cache (dds : DDS) (resource_id func_ce cache_file_name : string)
  : M (option DDS) :=
  let* created := create_and_lock cache_file_name in
  if created then
    let* is_open := ofstream_open cache_file_name in
    if negb is_open
    then throw (BESInternalError
                  ("Could not open '" +:+ cache_file_name +:+ "' to write cached response."))
    else
      let* fdds :=
        try_catch_all
          (write_dataset_to_cache_try dds resource_id func_ce cache_file_name)
          (write_dataset_to_cache_catch cache_file_name) in
      ofstream_close cache_file_name ;;
      ret fdds
  else ret None.

(** [get_or_cache_dataset(dds, constraint, eval)]; [eval] is passed on to
    [write_dataset_to_cache], which does not use it. *)
Definition get_or_cache_dataset (dds : DDS) (constraint : string) : M (option DDS) :=
  let resourceId := filename dds +:+ "#" +:+ constraint in
  let hashValue := str_hash resourceId in
  let hashed_id := decimal hashValue in
  let cache_file_name := get_cache_file_name hashed_id in
  let* (ret_dds, cache_file_name) := load_from_cache resourceId cache_file_name in
  match ret_dds with
  | Some ret_dds => ret (Some (set_filename (filename dds) ret_dds))
  | None =>
      let* ret_dds := write_dataset_to_cache dds resourceId constraint cache_file_name in
      match ret_dds with
      | Some ret_dds => ret (Some ret_dds)
      | None =>
          let* (ret_dds, cache_file_name) := load_from_cache resourceId cache_file_name in
          match ret_dds with
          | Some ret_dds => ret (Some (set_filename (filename dds) ret_dds))
          | None => ret None
          end
      end
  end.

End WithCollaborators.
End Cache.
Export Cache.

(** ** A small instance of the collaborators

    A line-oriented descriptor, a one-byte codec for bytes and a row codec
    for sequences, and an evaluator whose every function yields one byte
    variable named [result]. It serves the concrete runs below. *)

Module Toy.

Definition tag_of (t : Type_) : option string :=
  match t with
  | dods_byte_c => Some "B"
  | dods_sequence_c => Some "S"
  | _ => None
  end.

Fixpoint print_vars (vs : list BaseType) (constrained : bool) : result string :=
  match vs with
  | [] => Ok ""
  | v :: rest =>
      if negb constrained || send_p v then
        match tag_of (type v), print_vars rest constrained with
        | Some tag, Ok text => Ok (tag +:+ name v +:+ endl +:+ text)
        | None, _ => Throw (libdap_Error "print_xml_writer: unsupported type")
        | _, Throw e => Throw e
        end
      else print_vars rest constrained
  end.

Definition toy_print_xml_writer (dds : DDS) (constrained : bool) (blob : string)
  : result string := print_vars (vars dds) constrained.

Definition declare (line : string) : option BaseType :=
  match line with
  | String "B" n => Some (mk_BaseType n dods_byte_c false false "" no_row [])
  | String "S" n => Some (mk_BaseType n dods_sequence_c false false "" no_row [])
  | _ => None
  end.

Fixpoint parse_lines (fuel : nat) (s : istream) (boundary : string) (acc : list BaseType)
  : result (list BaseType * istream) :=
  match fuel with
  | O => Throw (libdap_Error "intern_stream: no boundary")
  | S fuel' =>
      let '(line, s') := getline s (S (S (String.length (is_buf s)))) in
      if is_fail s' then Throw (libdap_Error "intern_stream: no boundary")
      else if String.eqb line boundary then Ok (acc, s')
      else match declare line with
           | Some v => parse_lines fuel' s' boundary (acc ++ [v])
           | None => Throw (libdap_Error "intern_stream: bad declaration")
           end
  end.

Definition toy_intern_stream (s : istream) (fdds : DDS) (boundary : string)
  : result (DDS * istream) :=
  if is_fail s || is_eof s
  then Throw (libdap_Error "Input stream not open or read error")
  else match parse_lines (S (String.length (is_buf s))) s boundary (vars fdds) with
       | Ok (vs, s') => Ok (mk_DDS (filename fdds) vs, s')
       | Throw e => Throw e
       end.

Fixpoint write_rows (rows : string) : string :=
  match rows with
  | "" => "E"
  | String c rest => String "R" (String c (write_rows rest))
  end.

Fixpoint read_rows (fuel : nat) (buf : string) : option (string * Z * string) :=
  match fuel, buf with
  | S fuel', String "R" (String c rest) =>
      match read_rows fuel' rest with
      | Some (rows, n, rest') => Some (String c rows, (n + 1)%Z, rest')
      | None => None
      end
  | S _, String "E" rest => Some ("", 0%Z, rest)
  | _, _ => None
  end.

Definition toy_serialize (v : BaseType) (dds : DDS) (ce_eval : bool) : result string :=
  match type v with
  | dods_byte_c =>
      if Nat.eqb (String.length (value v)) 1 then Ok (value v)
      else Throw (libdap_Error "serialize: not a byte")
  | dods_sequence_c => Ok (write_rows (value v))
  | _ => Throw (libdap_Error "serialize: unsupported type")
  end.

Definition toy_deserialize (v : BaseType) (um : istream) : result (BaseType * istream) :=
  match type v with
  | dods_byte_c =>
      match is_buf um with
      | String c rest =>
          Ok (mk_BaseType (name v) (type v) (read_p v) (send_p v) (String c "")
                (row_number v) (members v),
              mk_istream rest (is_eof um) (is_fail um))
      | "" => Throw (libdap_Error "deserialize: short read")
      end
  | dods_sequence_c =>
      match read_rows (S (String.length (is_buf um))) (is_buf um) with
      | Some (rows, n, rest) =>
          Ok (mk_BaseType (name v) (type v) (read_p v) (send_p v) rows
                (row_number v + n) (members v),
              mk_istream rest (is_eof um) (is_fail um))
      | None => Throw (libdap_Error "deserialize: short read")
      end
  | _ => Throw (libdap_Error "deserialize: unsupported type")
  end.

(** Parsing keeps the expression and leaves the dataset as it is. *)
Definition toy_parse_constraint (func_ce : string) (dds : DDS) : result (string * DDS) :=
  if String.eqb func_ce "" then Throw (libdap_Error "parse_constraint: no function")
  else Ok (func_ce, dds).

(** The result of the function clauses is a new dataset, without a file
    name, that holds the values the functions return. *)
Definition toy_eval_function_clauses (func_eval : string) (dds : DDS) : result (DDS * DDS) :=
  if String.eqb func_eval "fail()" then Throw (libdap_Error "fail(): no such function")
  else Ok (mk_DDS "" [mk_BaseType "result" dods_byte_c true true "r" no_row []], dds).

#[export] Instance toy : Collaborators := {|
  d_prefix := "rc";
  d_size_mb := 20;
  str_hash := fun s => N.of_nat (String.length s);
  ConstraintEvaluator := string;
  parse_constraint := toy_parse_constraint;
  eval_function_clauses := toy_eval_function_clauses;
  print_xml_writer := toy_print_xml_writer;
  serialize := toy_serialize;
  intern_stream := toy_intern_stream;
  deserialize := toy_deserialize
|}.

(** The dataset and constraint of the cold-miss scenario: [/data/f.nc] with
    one byte variable [u], marked to be sent, and the function [mean(u,0)]. *)
Definition u : BaseType := mk_BaseType "u" dods_byte_c false true "7" no_row [].
Definition D : DDS := mk_DDS "/data/f.nc" [u].
Definition C : string := "mean(u,0)".

Definition data_file : file := mk_file "netcdf" 100 100 false.

(** An empty cache directory beside the dataset's file. *)
Definition w0 : world :=
  mk_world {["/data/f.nc" := data_file]} ∅ 0 1000 [] [].

End Toy.

(** ** Notions used in the statements *)

Module Statements.
Section WithCollaborators.
Context `{Collaborators}.

(** The name probed for suffix [suffix]. *)
Definition candidate (cache_file_name : string) (suffix : N) : string :=
  cache_file_name +:+ "_" +:+ decimal suffix.

(** What [load_from_cache] reads from an entry before it compares: the
    [getline] into the buffer of [max_cacheable_ce_len] characters. *)
Definition header_stream (f : file) : string * istream :=
  getline (mk_istream (f_data f) false false) (Z.to_nat max_cacheable_ce_len).

(** The header line of an entry as [load_from_cache] reads it. *)
Definition header (f : file) : string := c_str (header_stream f).1.

(** Candidate [suffix] exists and its header names another resource. *)
Definition collides (w : world) (resource_id cache_file_name : string) (suffix : N) : Prop :=
  exists f, fs w !! candidate cache_file_name suffix = Some f /\ header f <> resource_id.

(** A variable as [read_cached_data] leaves it. *)
Definition marked (v : BaseType) : Prop :=
  read_p v = true /\ send_p v = true
  /\ (type v = dods_sequence_c -> row_number v = no_row /\ rows_reset v = true).

(** No other process is active and the file [name] holds [data]. *)
Definition holds (w : world) (name data : string) : Prop :=
  quiet w /\ exists f, fs w !! name = Some f /\ f_data f = data.

(** The bytes the serialize loop sends for the variables [vs] of [dds]. *)
Fixpoint payload_of (vs : list BaseType) (dds : DDS) : result string :=
  match vs with
  | [] => Ok ""
  | v :: rest =>
      if send_p v then
        match serialize v dds false with
        | Ok bytes =>
            match payload_of rest dds with
            | Ok p => Ok (bytes +:+ p)
            | Throw e => Throw e
            end
        | Throw e => Throw e
        end
      else payload_of rest dds
  end.

(** The layout of an entry: header line, descriptor, delimiter, payload. *)
Definition entry_text (resource_id xml payload : string) : string :=
  resource_id +:+ endl +:+ xml +:+ DATA_MARK +:+ endl +:+ payload.

(** The base name [get_or_cache_dataset] computes for a request. *)
Definition base_name (dds : DDS) (constraint : string) : string :=
  get_cache_file_name (decimal (str_hash (get_resource_id dds constraint))).

(** The calls made from [w] on. *)
Definition calls_since (w w' : world) : list call := drop (length (trace w)) (trace w').

(** The three calls of the [catch] block. *)
Definition cleanup_calls (name : string) : list call :=
  [ofstream_close_call name; purge_file_call name; unlock_and_close_call name].

(** *** The claims the code does not meet, as they are stated *)

(** Cacheable exactly when the resource identifier has at most 4096 bytes. *)
Definition cacheable_iff_4096 (dds : DDS) (constraint : string) : Prop :=
  can_be_cached dds constraint = true
  <-> (String.length (get_resource_id dds constraint) <= 4096)%nat.

(** Whatever is thrown once [create_and_lock] has succeeded, the call ends
    with the three calls of the [catch] block and the lock is released. *)
Definition cleans_up_after_any_throw (dds : DDS) (resource_id func_ce name : string)
  (w : world) : Prop :=
  forall w1 e w',
    create_and_lock name w = (Ok true, w1) ->
    write_dataset_to_cache dds resource_id func_ce name w = (Throw e, w') ->
    (exists calls, calls_since w w' = (calls ++ cleanup_calls name)%list)
    /\ locks w' !! name = None.

(** A dataset is returned only from a candidate whose first line is the
    resource identifier. *)
Definition hit_only_on_first_line (resource_id cache_file_name : string) (w : world) : Prop :=
  forall d name w',
    load_from_cache resource_id cache_file_name w = (Ok (Some d, name), w') ->
    exists k f,
      fs w !! candidate cache_file_name k = Some f
      /\ first_line (f_data f) = resource_id.

(** After a successful write the first line of the entry is the resource
    identifier. *)
Definition first_line_is_resource_id (dds : DDS) (resource_id func_ce name : string)
  (w : world) : Prop :=
  forall fdds w',
    write_dataset_to_cache dds resource_id func_ce name w = (Ok (Some fdds), w') ->
    exists f, fs w' !! name = Some f /\ first_line (f_data f) = resource_id.

(** An entry older than the dataset's file is written again by the next
    call. *)
Definition newer_dataset_invalidates (dds : DDS) (constraint : string) (w : world) : Prop :=
  forall f g,
    fs w !! candidate (base_name dds constraint) 0 = Some f ->
    fs w !! filename dds = Some g ->
    (f_mtime f < f_mtime g)%Z ->
    forall r w',
      get_or_cache_dataset dds constraint w = (r, w') ->
      exists text,
        In (ofstream_write_call (candidate (base_name dds constraint) 0) text)
          (calls_since w w').

(** Every dataset returned carries the file name of the original. *)
Definition returns_original_filename (dds : DDS) (constraint : string) (w : world) : Prop :=
  forall d w',
    get_or_cache_dataset dds constraint w = (Ok (Some d), w') ->
    filename d = filename dds.

End WithCollaborators.
End Statements.
Export Statements.

Fixpoint repeat_char (c : ascii) (n : nat) : string :=
  match n with
  | O => ""
  | S n' => String c (repeat_char c n')
  end.

(** Induction on a variable with the members as induction hypotheses. *)
Fixpoint BaseType_nested_ind (P : BaseType -> Prop)
  (step : forall n t r s x row ms, Forall P ms -> P (mk_BaseType n t r s x row ms))
  (v : BaseType) : P v :=
  match v with
  | mk_BaseType n t r s x row ms =>
      step n t r s x row ms
        ((fix all (l : list BaseType) : Forall P l :=
            match l with
            | [] => @List.Forall_nil _ P
            | m :: rest => @List.Forall_cons _ P m rest (BaseType_nested_ind P step m) (all rest)
            end) ms)
  end.

(** ** Concrete runs with the small collaborators *)

Module Scenario.
Import Toy.

Definition rid : string := get_resource_id D C.
Definition slot : string := "rc20_0".

(** The dataset the function clauses return. *)
Definition function_result : DDS :=
  mk_DDS "" [mk_BaseType "result" dods_byte_c true true "r" no_row []].

(** The dataset decoded from the entry written for [D] and [C]. *)
Definition decoded : DDS := mk_DDS "" [mk_BaseType "u" dods_byte_c true true "7" no_row []].

(** The cache after the first request for [D] and [C]. *)
Definition w_cached : world := (get_or_cache_dataset D C w0).2.

(** The same cache once the dataset's file has been touched. *)
Definition w_touched : world :=
  set_fs (apply_action (env_touch "/data/f.nc" 5000) (fs w_cached)) w_cached.

(** A cache whose only entry has, as its first line, the identifier of
    [D] and [C] followed by a NUL and more text. *)
Definition nul_entry : file :=
  mk_file (rid +:+ String nul "junk" +:+ endl
           +:+ "Bu" +:+ endl +:+ DATA_MARK +:+ endl +:+ "7") 1009 1002 true.
Definition w_nul : world :=
  mk_world {[ "/data/f.nc" := data_file; slot := nul_entry ]} ∅ 0 1010 [] [].

(** Another function of the same dataset whose identifier has the same hash. *)
Definition C' : string := "mean(v,0)".
Definition rid' : string := get_resource_id D C'.

(** A dataset whose file has a line break in its name. *)
Definition D_nl : DDS := mk_DDS ("/data/f" +:+ endl +:+ ".nc") [u].
Definition rid_nl : string := get_resource_id D_nl C.

(** A function that fails. *)
Definition C_fail : string := "fail()".
Definition rid_fail : string := get_resource_id D C_fail.
Definition slot_fail : string := "rc17_0".
Definition w_created : world := (create_and_lock slot_fail w0).2.
Definition w_opened : world := (ofstream_open slot_fail w_created).2.
Definition w_thrown : world :=
  (write_dataset_to_cache_try D rid_fail C_fail slot_fail w_opened).2.

(** Another process makes the new file read-only before it is opened. *)
Definition w_chmod : world :=
  mk_world {["/data/f.nc" := data_file]} ∅ 0 1000 [env_idle; env_chmod slot false] [].

(** Another process creates the slot between the probe and
    [create_and_lock]. *)
Definition w_race : world :=
  mk_world {["/data/f.nc" := data_file]} ∅ 0 1000
    [env_idle; env_create slot (mk_file "" 1001 1001 true)] [].
Definition w_race1 : world := (load_from_cache rid (base_name D C) w_race).2.
Definition w_race2 : world := (create_and_lock slot w_race1).2.
Definition w_race3 : world := (load_from_cache rid slot w_race2).2.

(** A dataset whose file name has 4095 bytes, and a function of one byte. *)
Definition long_name : DDS := mk_DDS (repeat_char "a" 4095) [u].
Definition C_long : string := "f".
Definition rid_long : string := get_resource_id long_name C_long.

(** The cache after the first request for [long_name]. *)
Definition w_long : world := (get_or_cache_dataset long_name C_long w0).2.

(** A stream at the descriptor of an entry with a byte and a sequence. *)
Definition entry_stream : istream :=
  mk_istream ("Bu" +:+ endl +:+ "Ss" +:+ endl +:+ "--DATA:" +:+ endl +:+ "7RaRbE") false false.

End Scenario.

(** ** Further notions: recognisable identifiers, kinds of calls *)

Module MoreStatements.

(** An identifier that fits the header buffer of [load_from_cache] and has
    neither a line break nor a NUL in it. *)
Definition recognisable (resource_id : string) : Prop :=
  (String.length resource_id < 4096)%nat
  /\ has_char newline resource_id = false
  /\ has_char nul resource_id = false.

(** The calls [load_from_cache] makes. *)
Definition is_probe_call (c : call) : bool :=
  match c with
  | get_read_lock_call _ _ | ifstream_open_call _ | unlock_and_close_call _ => true
  | _ => false
  end.

Definition is_get_read_lock_call (c : call) : bool :=
  match c with
  | get_read_lock_call _ _ => true
  | _ => false
  end.

(** What marking leaves alone in a variable. *)
Definition same_content (v v' : BaseType) : Prop :=
  name v' = name v /\ type v' = type v /\ value v' = value v
  /\ length (members v') = length (members v).

(** The calls of a write that succeeds, in order: the entry is created
    and opened, the identifier line, the descriptor and the data mark line
    are written, then one chunk for each variable sent; the lock is made
    shared, the total is updated, the cache is purged or not, the entry is
    unlocked; the stream is closed last. *)
Definition write_calls (name resource_id xml : string) (chunks : list string)
  (purge : list call) : list call :=
  ([create_and_lock_call name true; ofstream_open_call name true;
    ofstream_write_call name resource_id; ofstream_write_call name endl;
    ofstream_write_call name xml;
    ofstream_write_call name DATA_MARK; ofstream_write_call name endl]
   ++ map (ofstream_write_call name) chunks
   ++ [exclusive_to_shared_lock_call name; update_cache_info_call name]
   ++ purge
   ++ [unlock_and_close_call name; ofstream_close_call name])%list.

Section WithCollaborators.
Context `{Collaborators}.

(** What the collaborators make of a request, called in the order of the
    [try] block of [write_dataset_to_cache]: the result of the function
    clauses with the descriptor and the payload of the dataset the
    clauses were evaluated on, or the first exception raised. *)
Definition evaluated (dds : DDS) (func_ce : string) : result (DDS * string * string) :=
  match parse_constraint func_ce dds with
  | Throw e => Throw e
  | Ok (func_eval, dds1) =>
      match eval_function_clauses func_eval dds1 with
      | Throw e => Throw e
      | Ok (fdds, dds2) =>
          match print_xml_writer dds2 true "" with
          | Throw e => Throw e
          | Ok xml =>
              match payload_of (vars dds2) dds2 with
              | Throw e => Throw e
              | Ok p => Ok (fdds, xml, p)
              end
          end
      end
  end.

End WithCollaborators.

(** The calls of one iteration of [load_from_cache] on a candidate that
    exists and whose lock is given back: lock, open, unlock. *)
Definition probe_calls (cache_file_name : string) (suffix : N) : list call :=
  [get_read_lock_call (candidate cache_file_name suffix) true;
   ifstream_open_call (candidate cache_file_name suffix);
   unlock_and_close_call (candidate cache_file_name suffix)].

(** The calls of [k] such iterations, on the candidates from [s] on. *)
Fixpoint passed_over (cache_file_name : string) (s : N) (k : nat) : list call :=
  match k with
  | O => []
  | S k' => (probe_calls cache_file_name s ++ passed_over cache_file_name (s + 1) k')%list
  end.





End MoreStatements.
Export MoreStatements.

(** ** The singleton: [get_instance]

    The static pointer [d_instance] is the state; a call returns the
    pointer and leaves the state. The constructor of the cache object and
    [dir_exists] are not among the sources: the constructor is a parameter
    that may raise, the directories that exist are given with each call. *)

Module Singleton.

(** What a constructor can raise: a [BESError], which [get_instance]
    catches, or anything else. *)
Inductive raised :=
| raised_BESError (msg : string)
| raised_other (what : string).

Section WithConstructor.
Context {cache : Type}.
Variable construct : string -> string -> N -> cache + raised.
Variable extract_unsigned_long : string -> N -> N.
Variable lowercase : string -> string.

Definition default_cache_size : N := 20.
Definition default_cache_prefix : string := "rc".
Definition default_cache_dir : string := "/tmp/".
Definition PATH_KEY : string := "DAP.FunctionResponseCache.path".
Definition PREFIX_KEY : string := "DAP.FunctionResponseCache.prefix".
Definition SIZE_KEY : string := "DAP.FunctionResponseCache.size".

(** Modelled from the spec: [TheBESKeys::get_value(key, val, found)] on a
    configuration with one value per key: [found] tells whether the key is
    set, and [val] is overwritten only when it is. *)
Definition get_value (keys : gmap string string) (key val : string) : string * bool :=
  match keys !! key with
  | Some v => (v, true)
  | None => (val, false)
  end.

(** [getCacheSizeFromConfig()]; [iss >> size_in_megabytes] is the
    parameter [extract_unsigned_long], given the text and the value the
    variable has. *)
Definition getCacheSizeFromConfig (keys : gmap string string) : N :=
  let size_in_megabytes := default_cache_size in
  let '(size, found) := get_value keys SIZE_KEY "" in
  if found then extract_unsigned_long size size_in_megabytes else size_in_megabytes.

(** [getCachePrefixFromConfig()] *)
Definition getCachePrefixFromConfig (keys : gmap string string) : string :=
  let prefix := default_cache_prefix in
  let '(prefix, found) := get_value keys PREFIX_KEY prefix in
  if found then lowercase prefix else prefix.

(** [getCacheDirFromConfig()] *)
Definition getCacheDirFromConfig (keys : gmap string string) : string :=
  let cacheDir := default_cache_dir in
  let '(cacheDir, found) := get_value keys PATH_KEY cacheDir in
  cacheDir.

(** [dir_exists(dir)] against the directories that exist. *)
Definition dir_exists (dirs : gset string) (dir : string) : bool := bool_decide (dir ∈ dirs).

(** The outcome of a call: the pointer returned, or an exception that is
    not a [BESError]. *)
Inductive outcome :=
| returned (instance : option cache)
| thrown (what : string).

(** [get_instance(cache_dir, prefix, size)] *)
Definition get_instance (dirs : gset string) (cache_dir prefix : string) (size : N)
  (d_instance : option cache) : outcome * option cache :=
  match d_instance with
  | None =>
      if dir_exists dirs cache_dir then
        match construct cache_dir prefix size with
        | inl c => (returned (Some c), Some c)
        | inr (raised_BESError _) => (returned None, None)
        | inr (raised_other what) => (thrown what, None)
        end
      else (returned None, None)
  | Some _ => (returned d_instance, d_instance)
  end.

(** [get_instance()], configured from the keys. *)
Definition get_instance_default (keys : gmap string string) (dirs : gset string)
  (d_instance : option cache) : outcome * option cache :=
  match d_instance with
  | None =>
      if dir_exists dirs (getCacheDirFromConfig keys) then
        match construct (getCacheDirFromConfig keys) (getCachePrefixFromConfig keys)
                (getCacheSizeFromConfig keys) with
        | inl c => (returned (Some c), Some c)
        | inr (raised_BESError _) => (returned None, None)
        | inr (raised_other what) => (thrown what, None)
        end
      else (returned None, None)
  | Some _ => (returned d_instance, d_instance)
  end.

(** A call of either overload, with the directories that exist when it
    is made. *)
Inductive request :=
| with_arguments (dirs : gset string) (cache_dir prefix : string) (size : N)
| with_configuration (keys : gmap string string) (dirs : gset string).

Definition serve (q : request) (d_instance : option cache) : outcome * option cache :=
  match q with
  | with_arguments dirs cache_dir prefix size =>
      get_instance dirs cache_dir prefix size d_instance
  | with_configuration keys dirs => get_instance_default keys dirs d_instance
  end.

(** The calls of a process, in order: what each returned or threw, and the
    pointer at the end. *)
Fixpoint serve_all (qs : list request) (d_instance : option cache)
  : list outcome * option cache :=
  match qs with
  | [] => ([], d_instance)
  | q :: qs =>
      let '(o, d) := serve q d_instance in
      let '(os, d') := serve_all qs d in
      (o :: os, d')
  end.

End WithConstructor.

(** For the runs below: a constructor whose object records its arguments
    and that refuses a size of zero with a [BESError], the extraction of a
    decimal number without sign, and ASCII lower case. *)
Definition toy_construct (cache_dir prefix : string) (size : N)
  : (string * string * N) + raised :=
  if (size =? 0)%N then inr (raised_BESError "size") else inl (cache_dir, prefix, size).

Definition is_digit (c : ascii) : bool :=
  let n := N_of_ascii c in ((48 <=? n) && (n <=? 57))%N.

Fixpoint leading_digits (s : string) : string :=
  match s with
  | "" => ""
  | String c rest => if is_digit c then String c (leading_digits rest) else ""
  end.

(** The number written in the decimal digits a text begins with: an empty
    text leaves the variable as it was, a text that begins with no digit
    gives zero. *)
Definition toy_extract (text : string) (old : N) : N :=
  match text with
  | "" => old
  | _ =>
      match NilEmpty.uint_of_string (leading_digits text) with
      | Some d => N.of_uint d
      | None => 0%N
      end
  end.

Definition toy_lowercase_char (c : ascii) : ascii :=
  let n := N_of_ascii c in
  if ((65 <=? n) && (n <=? 90))%N then ascii_of_N (n + 32) else c.

Fixpoint toy_lowercase (s : string) : string :=
  match s with
  | "" => ""
  | String c rest => String (toy_lowercase_char c) (toy_lowercase rest)
  end.

Definition toy_requests : list request :=
  [ with_arguments {["/tmp/"]} "/missing/" "rc" 20;
    with_arguments {["/tmp/"]} "/tmp/" "rc" 0;
    with_arguments {["/tmp/"]} "/tmp/" "rc" 20;
    with_configuration {[PATH_KEY := "/var/cache/"; SIZE_KEY := "5"]} {["/var/cache/"]};
    with_arguments {["/tmp/"]} "/tmp/" "fn" 7 ].

End Singleton.

(** ** Further scenarios *)

Module MoreScenario.
Import Toy Scenario.

(** Another dataset object on the same file. *)
Definition D_same : DDS := mk_DDS "/data/f.nc" [].

(** A cache in which the entry of [C'], in the second slot, was cut off
    before the data mark. *)
Definition truncated : file := mk_file (rid' +:+ endl +:+ "Bu" +:+ endl) 1020 1020 true.
Definition w_truncated : world :=
  mk_world {[ "/data/f.nc" := data_file;
              "rc20_0" := mk_file (entry_text rid ("Bu" +:+ endl) "7") 1009 1002 true;
              "rc20_1" := truncated ]} ∅ 0 1030 [] [].

(** A cache with the entries of [C] and of [C'], in this order. *)
Definition w_two : world :=
  mk_world {[ "/data/f.nc" := data_file;
              "rc20_0" := mk_file (entry_text rid ("Bu" +:+ endl) "7") 1009 1002 true;
              "rc20_1" := mk_file (entry_text rid' ("Bu" +:+ endl) "7") 1020 1012 true ]}
    ∅ 0 1030 [] [].

End MoreScenario.

(** * Properties *)

Section Facts.
Context `{Collaborators}.

(** ** Strings *)

Lemma length_append (a b : string) :
  String.length (a +:+ b) = (String.length a + String.length b)%nat.
Proof. induction a as [|c a IH]; simpl; [reflexivity | now rewrite IH]. Qed.

Lemma length_get_resource_id (dds : DDS) (constraint : string) :
  String.length (get_resource_id dds constraint)
  = (String.length (filename dds) + 1 + String.length constraint)%nat.
Proof. unfold get_resource_id. rewrite !length_append. simpl. lia. Qed.

Lemma extract_line_length (buf : string) (room : nat) :
  (String.length (extract_line buf room).1.1 <= room)%nat.
Proof.
  revert room. induction buf as [|c buf IH]; intros room; simpl; [lia|].
  destruct (Ascii.eqb c newline); simpl; [lia|].
  destruct room as [|room]; simpl; [lia|].
  specialize (IH room). destruct (extract_line buf room) as [[l r] st]. simpl in *. lia.
Qed.

Lemma getline_length (s : istream) (n : nat) :
  (String.length (getline s n).1 <= n - 1)%nat.
Proof.
  unfold getline. destruct (good s); simpl; [|lia].
  pose proof (extract_line_length (is_buf s) (n - 1)) as Hl.
  destruct (extract_line (is_buf s) (n - 1)) as [[l r] st]. simpl in Hl.
  destruct st; simpl; lia.
Qed.

Lemma c_str_length (line : string) : (String.length (c_str line) <= String.length line)%nat.
Proof.
  induction line as [|c line IH]; simpl; [lia|].
  destruct (Ascii.eqb c nul); simpl; lia.
Qed.

(** At most 4095 characters of a header are ever compared. *)
Lemma header_read_length (s : istream) :
  (String.length (c_str (getline s (Z.to_nat max_cacheable_ce_len)).1) <= 4095)%nat.
Proof.
  pose proof (getline_length s (Z.to_nat max_cacheable_ce_len)) as Hg.
  pose proof (c_str_length (getline s (Z.to_nat max_cacheable_ce_len)).1) as Hc.
  change (Z.to_nat max_cacheable_ce_len) with 4096%nat in *. lia.
Qed.

(** ** The monad *)

Lemma bind_ext {A B} (m : M A) (k1 k2 : A -> M B) (w : world) :
  (forall a w', k1 a w' = k2 a w') -> bind m k1 w = bind m k2 w.
Proof. intros Hk. unfold bind. destruct (m w) as [[a|e] w']; [apply Hk | reflexivity]. Qed.

Lemma bind_Ok {A B} (m : M A) (k : A -> M B) (w w' : world) (a : A) :
  m w = (Ok a, w') -> bind m k w = k a w'.
Proof. intros Hm. unfold bind. rewrite Hm. reflexivity. Qed.

Lemma bind_Throw {A B} (m : M A) (k : A -> M B) (w w' : world) (e : exn) :
  m w = (Throw e, w') -> bind m k w = (Throw e, w').
Proof. intros Hm. unfold bind. rewrite Hm. reflexivity. Qed.

(** ** The loop of [load_from_cache] *)

Lemma load_from_cache_loop_unfold (fuel : nat) (resource_id cache_file_name : string)
  (suffix_counter : N) :
  load_from_cache_loop (S fuel) resource_id cache_file_name suffix_counter =
  if (max_collisions <? suffix_counter)%N
  then throw (BESInternalError (collisions_message suffix_counter resource_id))
  else
    let cfname := candidate cache_file_name suffix_counter in
    let* held := get_read_lock cfname in
    if negb held then ret (None, cfname)
    else
      let* cache_file_istream := ifstream_open cfname in
      let '(line, cache_file_istream) :=
        getline cache_file_istream (Z.to_nat max_cacheable_ce_len) in
      let* cached_dds :=
        (if String.eqb (c_str line) resource_id
         then let* d := lift (read_cached_data cache_file_istream) in ret (Some d)
         else ret None) in
      unlock_and_close cfname ;;
      match cached_dds with
      | Some d => ret (Some d, cache_file_name)
      | None => load_from_cache_loop fuel resource_id cache_file_name (suffix_counter + 1)
      end.
Proof. reflexivity. Qed.

(** The loop needs no more than one iteration per suffix up to
    [max_collisions]: more fuel does not change what it does. *)
Lemma load_from_cache_loop_fuel (resource_id cache_file_name : string) (fuel : nat) :
  forall (suffix_counter : N) (extra : nat) (w : world),
    (max_collisions < suffix_counter + N.of_nat fuel)%N ->
    load_from_cache_loop (fuel + extra) resource_id cache_file_name suffix_counter w
    = load_from_cache_loop fuel resource_id cache_file_name suffix_counter w.
Proof.
  induction fuel as [|fuel IH]; intros s extra w Hs.
  - assert (Hlt : (max_collisions <? s)%N = true) by (apply N.ltb_lt; lia).
    destruct extra as [|extra]; simpl; rewrite Hlt; reflexivity.
  - change (S fuel + extra)%nat with (S (fuel + extra)).
    rewrite !load_from_cache_loop_unfold.
    destruct (max_collisions <? s)%N; [reflexivity|].
    cbv beta iota zeta. apply bind_ext. intros held w1.
    destruct held; cbn [negb]; cbv beta iota; [|reflexivity].
    apply bind_ext. intros s1 w2.
    destruct (getline s1 (Z.to_nat max_cacheable_ce_len)) as [line s2].
    apply bind_ext. intros cached w3. apply bind_ext. intros _ w4.
    destruct cached; [reflexivity|]. apply IH. lia.
Qed.

(** [load_from_cache] always finishes its loop. *)
Lemma load_from_cache_total (resource_id cache_file_name : string) (extra : nat) (w : world) :
  load_from_cache_loop (S (N.to_nat max_collisions) + extra) resource_id cache_file_name 0 w
  = load_from_cache resource_id cache_file_name w.
Proof. apply load_from_cache_loop_fuel. unfold max_collisions. lia. Qed.

Lemma load_from_cache_loop_long (resource_id : string) :
  (4096 <= String.length resource_id)%nat ->
  forall fuel cache_file_name suffix_counter w d name w',
    load_from_cache_loop fuel resource_id cache_file_name suffix_counter w
    <> (Ok (Some d, name), w').
Proof.
  intros Hlen. induction fuel as [|fuel IH]; intros base s w d name w'.
  - simpl. destruct (max_collisions <? s)%N; discriminate.
  - rewrite load_from_cache_loop_unfold.
    destruct (max_collisions <? s)%N; [discriminate|].
    cbv beta iota zeta. unfold bind at 1.
    destruct (get_read_lock _ w) as [[[|]|e] w1]; cbn [negb]; cbv beta iota; try discriminate.
    unfold bind at 1.
    destruct (ifstream_open _ w1) as [[s1|e] w2]; [|discriminate].
    pose proof (header_read_length s1) as Hh.
    destruct (getline s1 (Z.to_nat max_cacheable_ce_len)) as [line s2]. simpl fst in Hh.
    destruct (String.eqb_spec (c_str line) resource_id) as [Heq|Hne].
    { rewrite Heq in Hh. lia. }
    unfold bind at 1, ret at 1. unfold bind at 1.
    destruct (unlock_and_close _ w2) as [[[]|e] w3]; [|discriminate].
    apply IH.
Qed.


(** ** The substrate when no other process is active *)

Lemma tick_quiet (w : world) :
  quiet w -> tick w = mk_world (fs w) (locks w) (cache_info w) (now w + 1) [] (trace w).
Proof. unfold quiet, tick. intros ->. reflexivity. Qed.

Lemma get_read_lock_quiet_Some (name : string) (f : file) (w : world) :
  quiet w -> fs w !! name = Some f ->
  exists w', get_read_lock name w = (Ok true, w')
             /\ quiet w' /\ fs w' = fs w /\ locks w' = <[name := Shared]> (locks w).
Proof.
  intros Hq Hf. unfold get_read_lock. rewrite (tick_quiet w Hq). cbn. rewrite Hf.
  eexists. split; [reflexivity|]. repeat split.
Qed.

Lemma get_read_lock_quiet_None (name : string) (w : world) :
  quiet w -> fs w !! name = None ->
  exists w', get_read_lock name w = (Ok false, w')
             /\ quiet w' /\ fs w' = fs w /\ locks w' = locks w.
Proof.
  intros Hq Hf. unfold get_read_lock. rewrite (tick_quiet w Hq). cbn. rewrite Hf.
  eexists. split; [reflexivity|]. repeat split.
Qed.

Lemma ifstream_open_quiet (name : string) (w : world) :
  quiet w ->
  exists w', ifstream_open name w
             = (Ok (match fs w !! name with
                    | Some f => mk_istream (f_data f) false false
                    | None => mk_istream "" false true
                    end), w')
             /\ quiet w' /\ fs w' = fs w /\ locks w' = locks w.
Proof.
  intros Hq. unfold ifstream_open. rewrite (tick_quiet w Hq). cbn.
  eexists. split; [reflexivity|]. repeat split.
Qed.

Lemma unlock_and_close_quiet (name : string) (w : world) :
  quiet w ->
  exists w', unlock_and_close name w = (Ok tt, w')
             /\ quiet w' /\ fs w' = fs w /\ locks w' = delete name (locks w)
             /\ cache_info w' = cache_info w.
Proof.
  intros Hq. unfold unlock_and_close. rewrite (tick_quiet w Hq). cbn.
  eexists. split; [reflexivity|]. repeat split.
Qed.

(** ** Probing in a quiet world *)

Lemma collides_same_files (w w' : world) (resource_id cache_file_name : string) (j : N) :
  fs w' = fs w -> collides w resource_id cache_file_name j ->
  collides w' resource_id cache_file_name j.
Proof. unfold collides. intros ->. auto. Qed.

(** One iteration on an entry of another resource: lock, read the header,
    unlock, go on with the next suffix. *)
Lemma probe_collision (resource_id cache_file_name : string) (fuel : nat) (s : N) (w : world) :
  quiet w -> (s <= max_collisions)%N -> collides w resource_id cache_file_name s ->
  exists w',
    load_from_cache_loop (S fuel) resource_id cache_file_name s w
    = load_from_cache_loop fuel resource_id cache_file_name (s + 1) w'
    /\ quiet w' /\ fs w' = fs w
    /\ locks w' = delete (candidate cache_file_name s) (locks w).
Proof.
  intros Hq Hs (f & Hf & Hne).
  rewrite load_from_cache_loop_unfold.
  replace (max_collisions <? s)%N with false by (symmetry; apply N.ltb_ge; exact Hs).
  cbv beta iota zeta.
  destruct (get_read_lock_quiet_Some _ f w Hq Hf) as (w1 & Hg & Hq1 & Hfs1 & Hl1).
  rewrite (bind_Ok _ _ _ _ _ Hg). cbn [negb]. cbv beta iota.
  destruct (ifstream_open_quiet (candidate cache_file_name s) w1 Hq1) as (w2 & Ho & Hq2 & Hfs2 & Hl2).
  rewrite (bind_Ok _ _ _ _ _ Ho). rewrite Hfs1, Hf.
  fold (header_stream f). unfold header in Hne.
  destruct (header_stream f) as [line s2]. simpl fst in Hne.
  replace (String.eqb (c_str line) resource_id) with false
    by (symmetry; apply String.eqb_neq; exact Hne).
  unfold bind at 1, ret at 1.
  destruct (unlock_and_close_quiet (candidate cache_file_name s) w2 Hq2)
    as (w3 & Hu & Hq3 & Hfs3 & Hl3 & _).
  rewrite (bind_Ok _ _ _ _ _ Hu).
  exists w3. split; [reflexivity|]. split; [exact Hq3|]. split; [congruence|].
  rewrite Hl3, Hl2, Hl1. apply delete_insert_eq.
Qed.

(** [k] iterations on [k] entries of other resources. *)
Lemma probe_skip (resource_id cache_file_name : string) (k : nat) :
  forall (fuel : nat) (s : N) (w : world),
    quiet w -> (s + N.of_nat k <= max_collisions + 1)%N ->
    (forall j, (s <= j < s + N.of_nat k)%N -> collides w resource_id cache_file_name j) ->
    exists w',
      load_from_cache_loop (k + fuel) resource_id cache_file_name s w
      = load_from_cache_loop fuel resource_id cache_file_name (s + N.of_nat k) w'
      /\ quiet w' /\ fs w' = fs w
      /\ (forall j, (s <= j < s + N.of_nat k)%N ->
                    locks w' !! candidate cache_file_name j = None)
      /\ (forall n, locks w !! n = None -> locks w' !! n = None).
Proof.
  induction k as [|k IH]; intros fuel s w Hq Hs Hc.
  - exists w. rewrite N.add_0_r. repeat split; try done. intros j Hj. lia.
  - destruct (probe_collision resource_id cache_file_name (k + fuel) s w Hq)
      as (w1 & Hstep & Hq1 & Hfs1 & Hl1); [lia | apply Hc; lia |].
    destruct (IH fuel (s + 1)%N w1 Hq1) as (w2 & Hrest & Hq2 & Hfs2 & Hl2 & Hn2); [lia | |].
    { intros j Hj. apply (collides_same_files w); [exact Hfs1 | apply Hc; lia]. }
    exists w2. split.
    { change (S k + fuel)%nat with (S (k + fuel)). rewrite Hstep, Hrest. f_equal. lia. }
    split; [exact Hq2|]. split; [congruence|]. split.
    + intros j Hj. destruct (N.eq_dec j s) as [->|Hjs].
      * apply Hn2. rewrite Hl1. apply lookup_delete_eq.
      * apply Hl2. lia.
    + intros n Hn. apply Hn2. rewrite Hl1.
      destruct (decide (candidate cache_file_name s = n)) as [<-|Hne].
      * apply lookup_delete_eq.
      * rewrite lookup_delete_ne by exact Hne. exact Hn.
Qed.

(** One iteration on a candidate that does not exist: a miss, and the
    candidate is the name left in [cache_file_name]. *)
Lemma probe_free (resource_id cache_file_name : string) (fuel : nat) (s : N) (w : world) :
  quiet w -> (s <= max_collisions)%N -> fs w !! candidate cache_file_name s = None ->
  exists w',
    load_from_cache_loop (S fuel) resource_id cache_file_name s w
    = (Ok (None, candidate cache_file_name s), w')
    /\ quiet w' /\ fs w' = fs w /\ locks w' = locks w.
Proof.
  intros Hq Hs Hf. rewrite load_from_cache_loop_unfold.
  replace (max_collisions <? s)%N with false by (symmetry; apply N.ltb_ge; exact Hs).
  cbv beta iota zeta.
  destruct (get_read_lock_quiet_None _ w Hq Hf) as (w1 & Hg & Hq1 & Hfs1 & Hl1).
  rewrite (bind_Ok _ _ _ _ _ Hg). cbn [negb]. cbv beta iota.
  exists w1. auto.
Qed.

(** One iteration on a candidate whose header is the resource identifier:
    the entry is decoded and, when that succeeds, returned. *)
Lemma probe_match (resource_id cache_file_name : string) (fuel : nat) (s : N) (w : world)
  (f : file) :
  quiet w -> (s <= max_collisions)%N ->
  fs w !! candidate cache_file_name s = Some f -> header f = resource_id ->
  match read_cached_data (header_stream f).2 with
  | Ok d =>
      exists w',
        load_from_cache_loop (S fuel) resource_id cache_file_name s w
        = (Ok (Some d, cache_file_name), w')
        /\ quiet w' /\ fs w' = fs w
        /\ locks w' = delete (candidate cache_file_name s) (locks w)
  | Throw e =>
      exists w',
        load_from_cache_loop (S fuel) resource_id cache_file_name s w = (Throw e, w')
  end.
Proof.
  intros Hq Hs Hf Hh. rewrite load_from_cache_loop_unfold.
  replace (max_collisions <? s)%N with false by (symmetry; apply N.ltb_ge; exact Hs).
  cbv beta iota zeta.
  destruct (get_read_lock_quiet_Some _ f w Hq Hf) as (w1 & Hg & Hq1 & Hfs1 & Hl1).
  rewrite (bind_Ok _ _ _ _ _ Hg). cbn [negb]. cbv beta iota.
  destruct (ifstream_open_quiet (candidate cache_file_name s) w1 Hq1) as (w2 & Ho & Hq2 & Hfs2 & Hl2).
  rewrite (bind_Ok _ _ _ _ _ Ho). rewrite Hfs1, Hf.
  fold (header_stream f). unfold header in Hh.
  destruct (header_stream f) as [line s2]. simpl fst in Hh. simpl snd.
  replace (String.eqb (c_str line) resource_id) with true
    by (symmetry; apply String.eqb_eq; exact Hh).
  unfold bind at 1 2, lift.
  destruct (read_cached_data s2) as [d|e].
  - unfold ret at 1.
    destruct (unlock_and_close_quiet (candidate cache_file_name s) w2 Hq2)
      as (w3 & Hu & Hq3 & Hfs3 & Hl3 & _).
    rewrite (bind_Ok _ _ _ _ _ Hu).
    exists w3. split; [reflexivity|]. split; [exact Hq3|]. split; [congruence|].
    rewrite Hl3, Hl2, Hl1. apply delete_insert_eq.
  - exists w2. reflexivity.
Qed.

(** A hit comes from a candidate whose header is the resource identifier. *)
Lemma probe_hit_only (resource_id cache_file_name : string) (fuel : nat) :
  forall (s : N) (w : world) (d : DDS) (name : string) (w' : world),
    quiet w ->
    load_from_cache_loop fuel resource_id cache_file_name s w = (Ok (Some d, name), w') ->
    exists k f,
      (s <= k <= max_collisions)%N
      /\ fs w !! candidate cache_file_name k = Some f
      /\ header f = resource_id
      /\ read_cached_data (header_stream f).2 = Ok d
      /\ name = cache_file_name.
Proof.
  induction fuel as [|fuel IH]; intros s w d name w' Hq Hrun.
  - simpl in Hrun. destruct (max_collisions <? s)%N; discriminate.
  - destruct (N.ltb_spec max_collisions s) as [Hlt|Hle].
    { rewrite load_from_cache_loop_unfold in Hrun.
      replace (max_collisions <? s)%N with true in Hrun by (symmetry; apply N.ltb_lt; exact Hlt).
      discriminate. }
    destruct (fs w !! candidate cache_file_name s) as [f|] eqn:Hf.
    + destruct (String.eqb_spec (header f) resource_id) as [Hh|Hh].
      * pose proof (probe_match resource_id cache_file_name fuel s w f Hq Hle Hf Hh) as Hm.
        destruct (read_cached_data (header_stream f).2) as [d'|e] eqn:Hr.
        -- destruct Hm as (w1 & Hm & _). rewrite Hm in Hrun.
           injection Hrun as <- <- <-. exists s, f. repeat split; try done; lia.
        -- destruct Hm as (w1 & Hm). rewrite Hm in Hrun. discriminate.
      * destruct (probe_collision resource_id cache_file_name fuel s w Hq Hle)
          as (w1 & Hstep & Hq1 & Hfs1 & _); [exists f; auto|].
        rewrite Hstep in Hrun.
        destruct (IH _ _ _ _ _ Hq1 Hrun) as (k & f' & Hk & Hf' & Hh' & Hr' & Hn).
        exists k, f'. rewrite <- Hfs1. repeat split; try done; lia.
    + destruct (probe_free resource_id cache_file_name fuel s w Hq Hle Hf) as (w1 & Hm & _).
      rewrite Hm in Hrun. discriminate.
Qed.

(** The header the loop compares is the first line of the entry, as long
    as that line fits the buffer and holds no NUL. *)
Lemma extract_line_first_line (buf : string) (room : nat) :
  (String.length (first_line buf) <= room)%nat ->
  (extract_line buf room).1.1 = first_line buf.
Proof.
  revert room. induction buf as [|c buf IH]; intros room Hl; simpl in *; [reflexivity|].
  destruct (Ascii.eqb c newline); [reflexivity|].
  simpl in Hl. destruct room as [|room]; [lia|].
  specialize (IH room ltac:(lia)).
  destruct (extract_line buf room) as [[l r] st]. simpl in *. congruence.
Qed.

Lemma c_str_no_nul (line : string) : has_char nul line = false -> c_str line = line.
Proof.
  induction line as [|c line IH]; cbn [c_str has_char]; [reflexivity|].
  rewrite (Ascii.eqb_sym nul c). destruct (Ascii.eqb c nul); cbn [orb]; [discriminate|].
  intros Hn. now rewrite IH.
Qed.

Lemma header_first_line (f : file) :
  (String.length (first_line (f_data f)) < 4096)%nat ->
  has_char nul (first_line (f_data f)) = false ->
  header f = first_line (f_data f).
Proof.
  intros Hl Hn. unfold header, header_stream, getline. cbn [good is_eof is_fail negb andb is_buf].
  change (Z.to_nat max_cacheable_ce_len - 1)%nat with 4095%nat.
  pose proof (extract_line_first_line (f_data f) 4095 ltac:(lia)) as He.
  destruct (extract_line (f_data f) 4095) as [[l r] st]. simpl in He. subst l.
  assert (Hfst : forall a b c : istream, (match st with
            | at_eof => (first_line (f_data f), a)
            | at_delim => (first_line (f_data f), b)
            | at_full => (first_line (f_data f), c)
            end).1 = first_line (f_data f)) by (intros; destruct st; reflexivity).
  rewrite Hfst. apply c_str_no_nul, Hn.
Qed.

(** C4 (amended). [load_from_cache] probes the candidates
    [cache_file_name_0], [cache_file_name_1], ... in order. While no other
    process is active: the first candidate that does not exist ends the
    probe with a miss and is the name left in [cache_file_name]; a
    candidate is decoded and returned, with [cache_file_name] unchanged,
    only when its header line equals the resource identifier, the header
    line being the first line as the code reads it, at most 4095
    characters of it and cut at the first NUL, which is the file's first
    line itself when that line has fewer than 4096 bytes and holds no NUL;
    the shared lock of every candidate that was passed over is released;
    and when the candidates 0 to [max_collisions] all exist with other
    headers, the counter exceeds [max_collisions] and an internal error is
    thrown. *)
Theorem load_from_cache_probing (resource_id cache_file_name : string) (w : world) :
  quiet w ->
  (forall k, (k <= max_collisions)%N ->
     (forall j, (j < k)%N -> collides w resource_id cache_file_name j) ->
     fs w !! candidate cache_file_name k = None ->
     exists w',
       load_from_cache resource_id cache_file_name w
       = (Ok (None, candidate cache_file_name k), w')
       /\ forall j, (j < k)%N -> locks w' !! candidate cache_file_name j = None)
  /\ (forall k f d, (k <= max_collisions)%N ->
       (forall j, (j < k)%N -> collides w resource_id cache_file_name j) ->
       fs w !! candidate cache_file_name k = Some f ->
       header f = resource_id ->
       read_cached_data (header_stream f).2 = Ok d ->
       exists w',
         load_from_cache resource_id cache_file_name w = (Ok (Some d, cache_file_name), w')
         /\ forall j, (j <= k)%N -> locks w' !! candidate cache_file_name j = None)
  /\ (forall d name w',
       load_from_cache resource_id cache_file_name w = (Ok (Some d, name), w') ->
       exists k f,
         (k <= max_collisions)%N
         /\ fs w !! candidate cache_file_name k = Some f
         /\ header f = resource_id
         /\ ((String.length (first_line (f_data f)) < 4096)%nat ->
             has_char nul (first_line (f_data f)) = false ->
             first_line (f_data f) = resource_id)
         /\ read_cached_data (header_stream f).2 = Ok d
         /\ name = cache_file_name)
  /\ ((forall j, (j <= max_collisions)%N -> collides w resource_id cache_file_name j) ->
      exists w',
        load_from_cache resource_id cache_file_name w
        = (Throw (BESInternalError (collisions_message (max_collisions + 1) resource_id)), w')).
Proof.
  intros Hq. unfold load_from_cache. repeat split.
  - intros k Hk Hc Hf.
    destruct (probe_skip resource_id cache_file_name (N.to_nat k)
                (S (N.to_nat max_collisions - N.to_nat k)) 0%N w Hq)
      as (w1 & Hskip & Hq1 & Hfs1 & Hl1 & _); [lia | intros j Hj; apply Hc; lia |].
    replace (N.to_nat k + S (N.to_nat max_collisions - N.to_nat k))%nat
      with (S (N.to_nat max_collisions)) in Hskip by lia.
    rewrite Hskip. replace (0 + N.of_nat (N.to_nat k))%N with k in * by lia.
    destruct (probe_free resource_id cache_file_name
                (N.to_nat max_collisions - N.to_nat k) k w1 Hq1 Hk)
      as (w2 & Hfree & _ & _ & Hl2); [congruence|].
    exists w2. split; [exact Hfree|]. intros j Hj. rewrite Hl2. apply Hl1. lia.
  - intros k f d Hk Hc Hf Hh Hr.
    destruct (probe_skip resource_id cache_file_name (N.to_nat k)
                (S (N.to_nat max_collisions - N.to_nat k)) 0%N w Hq)
      as (w1 & Hskip & Hq1 & Hfs1 & Hl1 & _); [lia | intros j Hj; apply Hc; lia |].
    replace (N.to_nat k + S (N.to_nat max_collisions - N.to_nat k))%nat
      with (S (N.to_nat max_collisions)) in Hskip by lia.
    rewrite Hskip. replace (0 + N.of_nat (N.to_nat k))%N with k in * by lia.
    pose proof (probe_match resource_id cache_file_name
                  (N.to_nat max_collisions - N.to_nat k) k w1 f Hq1 Hk
                  ltac:(congruence) Hh) as Hm.
    rewrite Hr in Hm. destruct Hm as (w2 & Hm & _ & _ & Hl2).
    exists w2. split; [exact Hm|]. intros j Hj. rewrite Hl2.
    destruct (decide (candidate cache_file_name k = candidate cache_file_name j)) as [<-|Hne].
    + apply lookup_delete_eq.
    + rewrite lookup_delete_ne by exact Hne.
      destruct (N.eq_dec j k) as [->|Hjk]; [contradiction|]. apply Hl1. lia.
  - intros d name w' Hrun.
    destruct (probe_hit_only _ _ _ _ _ _ _ _ Hq Hrun) as (k & f & Hk & Hf & Hh & Hr & Hn).
    exists k, f. split; [lia|]. split; [exact Hf|]. split; [exact Hh|].
    split; [|split; assumption].
    intros Hlen Hnul. rewrite <- Hh. symmetry. apply header_first_line; assumption.
  - intros Hc.
    destruct (probe_skip resource_id cache_file_name (S (N.to_nat max_collisions)) 0 0%N w Hq)
      as (w1 & Hskip & _); [unfold max_collisions; lia | intros j Hj; apply Hc; unfold max_collisions in *; lia |].
    rewrite Nat.add_0_r in Hskip. rewrite Hskip. exists w1. reflexivity.
Qed.

(** ** Writing in a quiet world *)

Lemma append_assoc (a b c : string) : (a +:+ b) +:+ c = a +:+ (b +:+ c).
Proof.
  induction a as [|x a IH]; [reflexivity|].
  change (String x ((a +:+ b) +:+ c) = String x (a +:+ (b +:+ c))). now f_equal.
Qed.

Lemma append_nil_r (a : string) : a +:+ "" = a.
Proof.
  induction a as [|x a IH]; [reflexivity|].
  change (String x (a +:+ "") = String x a). now f_equal.
Qed.

Lemma bind_inv_Ok {A B} (m : M A) (k : A -> M B) (w w'' : world) (b : B) :
  bind m k w = (Ok b, w'') ->
  exists a w', m w = (Ok a, w') /\ k a w' = (Ok b, w'').
Proof.
  unfold bind. destruct (m w) as [[a|e] w'] eqn:Hm; [|discriminate].
  intros Hk. exists a, w'. auto.
Qed.

Lemma create_and_lock_quiet (name : string) (w : world) (created : bool) (w' : world) :
  quiet w -> create_and_lock name w = (Ok created, w') ->
  if created
  then fs w !! name = None /\ quiet w'
       /\ fs w' = <[name := mk_file "" (now w + 1) (now w + 1) true]> (fs w)
  else is_Some (fs w !! name) /\ quiet w' /\ fs w' = fs w.
Proof.
  intros Hq. unfold create_and_lock. rewrite (tick_quiet w Hq). cbn.
  destruct (fs w !! name) as [f|] eqn:Hf; intros Hrun; injection Hrun as <- <-; cbn.
  - split; [eauto|]. split; reflexivity.
  - split; [reflexivity|]. split; reflexivity.
Qed.

Lemma ofstream_open_quiet (name : string) (w : world) (f : file) :
  quiet w -> fs w !! name = Some f -> f_writable f = true ->
  exists w', ofstream_open name w = (Ok true, w') /\ holds w' name "".
Proof.
  intros Hq Hf Hw. unfold ofstream_open. rewrite (tick_quiet w Hq). cbn. rewrite Hf, Hw.
  eexists. split; [reflexivity|]. split; [reflexivity|]. cbn.
  eexists. rewrite lookup_insert_eq. split; reflexivity.
Qed.

Lemma ofstream_write_holds (name text data : string) (w : world) :
  holds w name data ->
  exists w', ofstream_write name text w = (Ok tt, w') /\ holds w' name (data +:+ text).
Proof.
  intros (Hq & f & Hf & Hd). unfold ofstream_write. rewrite (tick_quiet w Hq). cbn. rewrite Hf.
  eexists. split; [reflexivity|]. split; [reflexivity|]. cbn.
  eexists. rewrite lookup_insert_eq. split; [reflexivity|]. cbn. now rewrite Hd.
Qed.

Lemma ofstream_close_holds (name n data : string) (w : world) :
  holds w n data ->
  exists w', ofstream_close name w = (Ok tt, w') /\ holds w' n data.
Proof.
  intros (Hq & f & Hf & Hd). unfold ofstream_close. rewrite (tick_quiet w Hq). cbn.
  eexists. split; [reflexivity|]. split; [reflexivity|]. cbn. eauto.
Qed.

Lemma exclusive_to_shared_lock_holds (fd n data : string) (w : world) :
  holds w n data ->
  exists w', exclusive_to_shared_lock fd w = (Ok tt, w') /\ holds w' n data.
Proof.
  intros (Hq & f & Hf & Hd). unfold exclusive_to_shared_lock. rewrite (tick_quiet w Hq). cbn.
  eexists. split; [reflexivity|]. split; [reflexivity|]. cbn. eauto.
Qed.

Lemma update_cache_info_holds (name n data : string) (w : world) :
  holds w n data ->
  exists total w', update_cache_info name w = (Ok total, w') /\ holds w' n data.
Proof.
  intros (Hq & f & Hf & Hd). unfold update_cache_info. rewrite (tick_quiet w Hq). cbn.
  eexists _, _. split; [reflexivity|]. split; [reflexivity|]. cbn. eauto.
Qed.

Lemma unlock_and_close_holds (name n data : string) (w : world) :
  holds w n data ->
  exists w', unlock_and_close name w = (Ok tt, w') /\ holds w' n data.
Proof.
  intros (Hq & f & Hf & Hd). unfold unlock_and_close. rewrite (tick_quiet w Hq). cbn.
  eexists. split; [reflexivity|]. split; [reflexivity|]. cbn. eauto.
Qed.

(** A purge never deletes the exempt entry. *)
Lemma purge_loop_keeps (name : string) (victims : list (string * file)) :
  forall (total : N) (files : gmap string file),
    Forall (fun e => e.1 <> name) victims ->
    (purge_loop victims total files).2 !! name = files !! name.
Proof.
  induction victims as [|[n f] victims IH]; intros total files Hv; cbn; [reflexivity|].
  destruct (total <=? low_water)%N; [reflexivity|].
  apply Forall_cons in Hv as [Hn Hv]. rewrite IH by exact Hv.
  apply lookup_delete_ne. exact Hn.
Qed.

Lemma purge_candidates_exempt (exempt : string) (w : world) :
  Forall (fun e => e.1 <> exempt) (purge_candidates exempt w).
Proof.
  unfold purge_candidates. apply Forall_forall. intros e He.
  rewrite merge_sort_Permutation in He.
  apply list_elem_of_filter in He as [(_ & Hne & _) _]. exact Hne.
Qed.

Lemma update_and_purge_holds (name data : string) (w : world) :
  holds w name data ->
  exists w', update_and_purge name w = (Ok tt, w') /\ holds w' name data.
Proof.
  intros (Hq & f & Hf & Hd). unfold update_and_purge. rewrite (tick_quiet w Hq).
  set (wt := mk_world _ _ _ _ _ _).
  pose proof (purge_loop_keeps name (purge_candidates name wt) (cache_info wt) (fs wt)
                (purge_candidates_exempt name wt)) as Hk.
  destruct (purge_loop (purge_candidates name wt) (cache_info wt) (fs wt)) as [total files].
  eexists. split; [reflexivity|]. split; [reflexivity|]. cbn in *.
  exists f. rewrite Hk. auto.
Qed.

Lemma serialize_vars_holds (dds : DDS) (name : string) (vs : list BaseType) :
  forall (data : string) (w : world) (r : result unit) (w' : world),
    holds w name data ->
    serialize_vars vs dds name w = (r, w') ->
    match r with
    | Ok _ => exists p, payload_of vs dds = Ok p /\ holds w' name (data +:+ p)
    | Throw e => payload_of vs dds = Throw e
    end.
Proof.
  induction vs as [|v vs IH]; intros data w r w' Hh Hrun; cbn in Hrun |- *.
  - injection Hrun as <- <-. exists "". rewrite append_nil_r. auto.
  - unfold bind at 1 in Hrun. destruct (send_p v).
    + unfold bind at 1, lift in Hrun. destruct (serialize v dds false) as [bytes|e].
      * destruct (ofstream_write_holds name bytes data w Hh) as (w1 & Hw & Hh1).
        rewrite Hw in Hrun. specialize (IH _ _ _ _ Hh1 Hrun).
        destruct r as [[]|e].
        -- destruct IH as (p & -> & Hh2). exists (bytes +:+ p).
           rewrite <- append_assoc. auto.
        -- rewrite IH. reflexivity.
      * injection Hrun as <- <-. reflexivity.
    + unfold ret at 1 in Hrun. apply (IH _ _ _ _ Hh Hrun).
Qed.

(** ** [write_dataset_to_cache] *)

Lemma lift_inv_Ok {A} (r : result A) (w w' : world) (a : A) :
  lift r w = (Ok a, w') -> r = Ok a /\ w' = w.
Proof. unfold lift. intros Hl. injection Hl as -> ->. auto. Qed.

(** What the [try] block returns is the result of the function clauses. *)
Lemma write_dataset_to_cache_try_result (dds : DDS) (resource_id func_ce name : string)
  (w : world) (r : option DDS) (w' : world) :
  write_dataset_to_cache_try dds resource_id func_ce name w = (Ok r, w') ->
  exists func_eval dds1 fdds dds2,
    parse_constraint func_ce dds = Ok (func_eval, dds1)
    /\ eval_function_clauses func_eval dds1 = Ok (fdds, dds2)
    /\ r = Some fdds.
Proof.
  unfold write_dataset_to_cache_try. intros Hrun.
  apply bind_inv_Ok in Hrun as (_ & w1 & _ & Hrun).
  apply bind_inv_Ok in Hrun as (_ & w2 & _ & Hrun).
  apply bind_inv_Ok in Hrun as ([func_eval dds1] & w3 & Hparse & Hrun).
  apply lift_inv_Ok in Hparse as [Hparse _].
  apply bind_inv_Ok in Hrun as ([fdds dds2] & w4 & Heval & Hrun).
  apply lift_inv_Ok in Heval as [Heval _].
  apply bind_inv_Ok in Hrun as (xml & w5 & _ & Hrun).
  apply bind_inv_Ok in Hrun as (_ & w6 & _ & Hrun).
  apply bind_inv_Ok in Hrun as (_ & w7 & _ & Hrun).
  apply bind_inv_Ok in Hrun as (_ & w8 & _ & Hrun).
  apply bind_inv_Ok in Hrun as (_ & w9 & _ & Hrun).
  apply bind_inv_Ok in Hrun as (_ & w10 & _ & Hrun).
  apply bind_inv_Ok in Hrun as (total & w11 & _ & Hrun).
  apply bind_inv_Ok in Hrun as (_ & w12 & _ & Hrun).
  apply bind_inv_Ok in Hrun as (_ & w13 & _ & Hrun).
  injection Hrun as <- <-. exists func_eval, dds1, fdds, dds2. auto.
Qed.

(** In a quiet world a [try] block that completes leaves the entry laid
    out as header line, descriptor, delimiter and payload; descriptor and
    payload are those of the dataset the function was evaluated on. *)
Lemma write_dataset_to_cache_try_holds (dds : DDS) (resource_id func_ce name : string)
  (w : world) (r : option DDS) (w' : world) :
  holds w name "" ->
  write_dataset_to_cache_try dds resource_id func_ce name w = (Ok r, w') ->
  exists func_eval dds1 fdds dds2 xml p,
    parse_constraint func_ce dds = Ok (func_eval, dds1)
    /\ eval_function_clauses func_eval dds1 = Ok (fdds, dds2)
    /\ print_xml_writer dds2 true "" = Ok xml
    /\ payload_of (vars dds2) dds2 = Ok p
    /\ r = Some fdds
    /\ holds w' name (entry_text resource_id xml p).
Proof.
  unfold write_dataset_to_cache_try. intros Hh Hrun.
  destruct (ofstream_write_holds name resource_id _ w Hh) as (w1 & Hw1 & Hh1).
  rewrite (bind_Ok _ _ _ _ _ Hw1) in Hrun.
  destruct (ofstream_write_holds name endl _ w1 Hh1) as (w2 & Hw2 & Hh2).
  rewrite (bind_Ok _ _ _ _ _ Hw2) in Hrun.
  unfold bind at 1, lift at 1 in Hrun.
  destruct (parse_constraint func_ce dds) as [[func_eval dds1]|e] eqn:Hparse; [|discriminate].
  unfold bind at 1, lift at 1 in Hrun.
  destruct (eval_function_clauses func_eval dds1) as [[fdds dds2]|e] eqn:Heval; [|discriminate].
  unfold bind at 1, lift at 1 in Hrun.
  destruct (print_xml_writer dds2 true "") as [xml|e] eqn:Hxml; [|discriminate].
  destruct (ofstream_write_holds name xml _ w2 Hh2) as (w3 & Hw3 & Hh3).
  rewrite (bind_Ok _ _ _ _ _ Hw3) in Hrun.
  destruct (ofstream_write_holds name DATA_MARK _ w3 Hh3) as (w4 & Hw4 & Hh4).
  rewrite (bind_Ok _ _ _ _ _ Hw4) in Hrun.
  destruct (ofstream_write_holds name endl _ w4 Hh4) as (w5 & Hw5 & Hh5).
  rewrite (bind_Ok _ _ _ _ _ Hw5) in Hrun.
  apply bind_inv_Ok in Hrun as ([] & w6 & Hser & Hrun).
  destruct (serialize_vars_holds _ _ _ _ _ _ _ Hh5 Hser) as (p & Hp & Hh6).
  destruct (exclusive_to_shared_lock_holds name name _ w6 Hh6) as (w7 & Hw7 & Hh7).
  rewrite (bind_Ok _ _ _ _ _ Hw7) in Hrun.
  destruct (update_cache_info_holds name name _ w7 Hh7) as (total & w8 & Hw8 & Hh8).
  rewrite (bind_Ok _ _ _ _ _ Hw8) in Hrun.
  assert (Hpurge : exists w9,
             (if cache_too_big total then update_and_purge name else ret tt) w8 = (Ok tt, w9)
             /\ holds w9 name ((((("" +:+ resource_id) +:+ endl) +:+ xml) +:+ DATA_MARK) +:+ endl +:+ p)).
  { destruct (cache_too_big total).
    - apply update_and_purge_holds. rewrite <- append_assoc. exact Hh8.
    - exists w8. split; [reflexivity|]. rewrite <- append_assoc. exact Hh8. }
  destruct Hpurge as (w9 & Hw9 & Hh9).
  rewrite (bind_Ok _ _ _ _ _ Hw9) in Hrun.
  destruct (unlock_and_close_holds name name _ w9 Hh9) as (w10 & Hw10 & Hh10).
  rewrite (bind_Ok _ _ _ _ _ Hw10) in Hrun.
  injection Hrun as <- <-.
  exists func_eval, dds1, fdds, dds2, xml, p.
  do 5 (split; [done|]). split; [apply Hh10|].
  destruct Hh10 as (_ & f & Hf & Hd). exists f. split; [exact Hf|].
  rewrite Hd. unfold entry_text. change ("" +:+ resource_id) with resource_id.
  rewrite !append_assoc. reflexivity.
Qed.

Lemma try_catch_all_inv_Ok {A} (m : M A) (handler : M unit) (w w' : world) (a : A) :
  try_catch_all m handler w = (Ok a, w') -> m w = (Ok a, w').
Proof.
  unfold try_catch_all. destruct (m w) as [[a'|e] w1]; [auto|].
  destruct (handler w1) as [[[]|e'] w2]; discriminate.
Qed.

(** A dataset returned by [write_dataset_to_cache] is the result of the
    function clauses, as the evaluator returned it. *)
Lemma write_dataset_to_cache_result (dds : DDS) (resource_id func_ce name : string)
  (w : world) (d : DDS) (w' : world) :
  write_dataset_to_cache dds resource_id func_ce name w = (Ok (Some d), w') ->
  exists func_eval dds1 dds2,
    parse_constraint func_ce dds = Ok (func_eval, dds1)
    /\ eval_function_clauses func_eval dds1 = Ok (d, dds2).
Proof.
  unfold write_dataset_to_cache. intros Hrun.
  apply bind_inv_Ok in Hrun as (created & w1 & _ & Hrun).
  destruct created; [|discriminate].
  apply bind_inv_Ok in Hrun as (is_open & w2 & _ & Hrun).
  destruct is_open; cbn [negb] in Hrun; [|discriminate].
  apply bind_inv_Ok in Hrun as (r & w3 & Htry & Hrun).
  apply try_catch_all_inv_Ok in Htry.
  apply bind_inv_Ok in Hrun as (_ & w4 & _ & Hrun). injection Hrun as -> <-.
  destruct (write_dataset_to_cache_try_result _ _ _ _ _ _ _ Htry)
    as (func_eval & dds1 & fdds & dds2 & Hp & He & Hr).
  injection Hr as ->. eauto.
Qed.

(** In a quiet world, the entry a successful [write_dataset_to_cache]
    leaves behind. *)
Lemma write_dataset_to_cache_entry (dds : DDS) (resource_id func_ce name : string)
  (w : world) (fdds : DDS) (w' : world) :
  quiet w ->
  write_dataset_to_cache dds resource_id func_ce name w = (Ok (Some fdds), w') ->
  exists func_eval dds1 dds2 xml p,
    parse_constraint func_ce dds = Ok (func_eval, dds1)
    /\ eval_function_clauses func_eval dds1 = Ok (fdds, dds2)
    /\ print_xml_writer dds2 true "" = Ok xml
    /\ payload_of (vars dds2) dds2 = Ok p
    /\ holds w' name (entry_text resource_id xml p).
Proof.
  unfold write_dataset_to_cache. intros Hq Hrun.
  apply bind_inv_Ok in Hrun as (created & w1 & Hc & Hrun).
  pose proof (create_and_lock_quiet name w created w1 Hq Hc) as Hcq.
  destruct created; [|discriminate]. destruct Hcq as (_ & Hq1 & Hfs1).
  destruct (ofstream_open_quiet name w1 (mk_file "" (now w + 1) (now w + 1) true) Hq1)
    as (w2 & Ho & Hh2); [rewrite Hfs1; apply lookup_insert_eq | reflexivity |].
  rewrite (bind_Ok _ _ _ _ _ Ho) in Hrun. cbn [negb] in Hrun.
  apply bind_inv_Ok in Hrun as (r & w3 & Htry & Hrun).
  apply try_catch_all_inv_Ok in Htry.
  destruct (write_dataset_to_cache_try_holds _ _ _ _ _ _ _ Hh2 Htry)
    as (func_eval & dds1 & fdds' & dds2 & xml & p & Hp & He & Hx & Hpl & -> & Hh3).
  destruct (ofstream_close_holds name name _ w3 Hh3) as (w4 & Hcl & Hh4).
  rewrite (bind_Ok _ _ _ _ _ Hcl) in Hrun. injection Hrun as <- <-.
  exists func_eval, dds1, dds2, xml, p. auto.
Qed.

Lemma first_line_append (a rest : string) :
  has_char newline a = false -> first_line (a +:+ endl +:+ rest) = a.
Proof.
  induction a as [|c a IH]; intros Hn; [reflexivity|].
  change (first_line (String c (a +:+ endl +:+ rest)) = String c a).
  cbn [has_char first_line] in *. rewrite (Ascii.eqb_sym newline c) in Hn.
  destruct (Ascii.eqb c newline); cbn [orb] in Hn; [discriminate|].
  f_equal. apply IH, Hn.
Qed.

(** ** The [catch] block *)

Lemma trace_tick (w : world) : trace (tick w) = trace w.
Proof. unfold tick. destruct (env w); reflexivity. Qed.

Lemma locks_tick (w : world) : locks (tick w) = locks w.
Proof. unfold tick. destruct (env w); reflexivity. Qed.

Lemma quiet_tick (w : world) : quiet w -> quiet (tick w) /\ fs (tick w) = fs w.
Proof. intros Hq. rewrite (tick_quiet w Hq). split; reflexivity. Qed.

Lemma write_dataset_to_cache_catch_spec (name : string) (w : world) :
  exists w',
    write_dataset_to_cache_catch name w = (Ok tt, w')
    /\ trace w' = (trace w ++ cleanup_calls name)%list
    /\ locks w' !! name = None
    /\ (quiet w -> fs w' !! name = None).
Proof.
  unfold write_dataset_to_cache_catch, bind, ofstream_close, purge_file, unlock_and_close.
  eexists. split; [reflexivity|]. cbn. split; [|split].
  - rewrite !trace_tick. cbn. rewrite !trace_tick. cbn. rewrite trace_tick.
    rewrite <- !app_assoc. reflexivity.
  - apply lookup_delete_eq.
  - intros Hq. destruct (quiet_tick w Hq) as [Hq1 Hf1].
    set (w1 := log (ofstream_close_call name) (tick w)).
    assert (Hq1' : quiet w1) by exact Hq1.
    destruct (quiet_tick w1 Hq1') as [Hq2 Hf2].
    set (w2 := log (purge_file_call name) (set_fs (delete name (fs (tick w1))) (tick w1))).
    assert (Hq2' : quiet w2) by exact Hq2.
    destruct (quiet_tick w2 Hq2') as [Hq3 Hf3].
    rewrite Hf3. cbn. apply lookup_delete_eq.
Qed.

(** ** The variables [read_cached_data] returns *)

Lemma set_flags_type (v : BaseType) : type (set_send_p true (set_read_p true v)) = type v.
Proof. reflexivity. Qed.

Lemma reset_row_number_flags (recur : bool) (v : BaseType) :
  type (reset_row_number recur v) = type v
  /\ read_p (reset_row_number recur v) = read_p v
  /\ send_p (reset_row_number recur v) = send_p v.
Proof. destruct v; simpl; auto. Qed.

Lemma reset_row_number_row (recur : bool) (v : BaseType) :
  row_number (reset_row_number recur v) = no_row.
Proof. destruct v; reflexivity. Qed.

Lemma rows_reset_reset_row_number (v : BaseType) :
  rows_reset (reset_row_number true v) = true.
Proof.
  induction v as [n t r s x row ms IH] using BaseType_nested_ind. simpl.
  apply andb_true_intro; split.
  - destruct (decide (t = dods_sequence_c)); reflexivity.
  - rewrite forallb_forall. intros m' Hin. apply in_map_iff in Hin as (m & <- & Hin).
    rewrite Forall_forall in IH. apply list_elem_of_In in Hin. specialize (IH m Hin).
    destruct (decide (type m = dods_sequence_c)) as [Hs|Hs].
    + destruct (reset_row_number_flags true m) as (-> & _). rewrite decide_True by done. exact IH.
    + rewrite decide_False by done. reflexivity.
Qed.

Lemma mark_read_and_to_send_marked (v : BaseType) : marked (mark_read_and_to_send v).
Proof.
  unfold mark_read_and_to_send, marked. rewrite set_flags_type.
  destruct (decide (type v = dods_sequence_c)) as [Hs|Hs].
  - destruct (reset_row_number_flags true (set_send_p true (set_read_p true v))) as (Ht & -> & ->).
    split; [reflexivity|]. split; [reflexivity|]. intros _. split.
    + apply reset_row_number_row.
    + apply rows_reset_reset_row_number.
  - split; [reflexivity|]. split; [reflexivity|]. intros Ht. contradiction.
Qed.

(** ** The claims *)

(** C2 (amended). For strings below the largest size a string can have,
    [can_be_cached] returns true exactly when the lengths of the file name
    and of the constraint add up to at most 4096, that is, when the
    resource identifier, which has the ["#"] between them, has at most
    4097 bytes. *)
Theorem can_be_cached_iff (dds : DDS) (constraint : string) :
  (string_size constraint < 2 ^ 63)%Z -> (string_size (filename dds) < 2 ^ 63)%Z ->
  can_be_cached dds constraint = true
  <-> (String.length (get_resource_id dds constraint) <= 4097)%nat.
Proof.
  intros Hc Hf. unfold can_be_cached, size_t_add, max_cacheable_ce_len.
  rewrite length_get_resource_id. unfold string_size in *.
  rewrite Z.mod_small by lia. rewrite Z.leb_le. lia.
Qed.


Lemma bind_inv_Throw {A B} (m : M A) (k : A -> M B) (w w'' : world) (e : exn) :
  bind m k w = (Throw e, w'') ->
  m w = (Throw e, w'') \/ exists a w', m w = (Ok a, w') /\ k a w' = (Throw e, w'').
Proof.
  unfold bind. destruct (m w) as [[a|e'] w'] eqn:Hm; intros Hk.
  - right. exists a, w'. auto.
  - left. injection Hk as -> ->. reflexivity.
Qed.

(** Once [create_and_lock] has succeeded and the output stream is open,
    whatever the [try] block of [write_dataset_to_cache] throws, the
    function closes the stream, purges the cache file and unlocks it, in
    this order and as its last three calls, and throws the same exception;
    the lock is released and, when no other process is active, the file is
    gone. *)
Lemma write_dataset_to_cache_cleans_up (dds : DDS) (resource_id func_ce name : string)
  (w w1 w2 w3 : world) (e : exn) :
  create_and_lock name w = (Ok true, w1) ->
  ofstream_open name w1 = (Ok true, w2) ->
  write_dataset_to_cache_try dds resource_id func_ce name w2 = (Throw e, w3) ->
  exists w',
    write_dataset_to_cache dds resource_id func_ce name w = (Throw e, w')
    /\ calls_since w3 w' = cleanup_calls name
    /\ locks w' !! name = None
    /\ (quiet w3 -> fs w' !! name = None).
Proof.
  intros Hc Ho Htry.
  destruct (write_dataset_to_cache_catch_spec name w3) as (w' & Hcatch & Htr & Hl & Hfs).
  exists w'. split; [|split; [|split]]; try assumption.
  - unfold write_dataset_to_cache.
    rewrite (bind_Ok _ _ _ _ _ Hc). rewrite (bind_Ok _ _ _ _ _ Ho). cbn [negb].
    apply bind_Throw. unfold try_catch_all. rewrite Htry, Hcatch. reflexivity.
  - unfold calls_since. rewrite Htr. apply drop_app_length.
Qed.

(** When the stream cannot be opened the internal error is thrown before
    the [try] block, and the call ends there: [create_and_lock] and the
    failed open are its only calls, the exclusive lock is still held and
    the file is still there. *)
Lemma write_dataset_to_cache_open_failure (dds : DDS) (resource_id func_ce name : string)
  (w w1 w2 : world) :
  create_and_lock name w = (Ok true, w1) ->
  ofstream_open name w1 = (Ok false, w2) ->
  write_dataset_to_cache dds resource_id func_ce name w
  = (Throw (BESInternalError
              ("Could not open '" +:+ name +:+ "' to write cached response.")), w2)
  /\ calls_since w w2 = [create_and_lock_call name true; ofstream_open_call name false]
  /\ locks w2 !! name = Some Exclusive
  /\ is_Some (fs w2 !! name).
Proof.
  intros Hc Ho. split.
  { unfold write_dataset_to_cache.
    rewrite (bind_Ok _ _ _ _ _ Hc). rewrite (bind_Ok _ _ _ _ _ Ho). reflexivity. }
  unfold create_and_lock in Hc. destruct (fs (tick w) !! name); [discriminate|].
  injection Hc as <-.
  unfold ofstream_open in Ho.
  destruct (fs (tick _) !! name) as [f|] eqn:Hf in Ho; [|discriminate].
  destruct (f_writable f); [discriminate|]. injection Ho as <-.
  split; [|split].
  - unfold calls_since. cbn. rewrite ?trace_tick. cbn. rewrite ?trace_tick.
    rewrite <- app_assoc. apply drop_app_length.
  - cbn. rewrite ?locks_tick. cbn. rewrite ?locks_tick. apply lookup_insert_eq.
  - cbn. rewrite Hf. eauto.
Qed.

(** C5 (amended). After a successful write by [write_dataset_to_cache],
    with no other process active, the entry file begins with the exact
    resource identifier followed by a newline; its first line equals the
    resource identifier whenever the identifier contains no newline. *)
Theorem entry_starts_with_resource_id (dds : DDS) (resource_id func_ce name : string)
  (w : world) (fdds : DDS) (w' : world) :
  quiet w ->
  write_dataset_to_cache dds resource_id func_ce name w = (Ok (Some fdds), w') ->
  exists f rest,
    fs w' !! name = Some f
    /\ f_data f = resource_id +:+ endl +:+ rest
    /\ (has_char newline resource_id = false -> first_line (f_data f) = resource_id).
Proof.
  intros Hq Hrun.
  destruct (write_dataset_to_cache_entry _ _ _ _ _ _ _ Hq Hrun)
    as (func_eval & dds1 & dds2 & xml & p & _ & _ & _ & _ & _ & f & Hf & Hd).
  exists f, (xml +:+ DATA_MARK +:+ endl +:+ p).
  split; [exact Hf|]. split; [exact Hd|].
  intros Hn. rewrite Hd. apply first_line_append, Hn.
Qed.

(** C6. After [read_cached_data] has rebuilt a dataset from a cache
    entry, every top-level variable has its read flag and its to-send flag
    set, and every top-level variable of sequence type has its row number
    reset, recursively through its nested sequences. *)
Theorem read_cached_data_marks (cached_data : istream) (fdds : DDS) :
  read_cached_data cached_data = Ok fdds ->
  Forall marked (vars fdds).
Proof.
  unfold read_cached_data. intros Hr.
  destruct (intern_stream cached_data (mk_DDS "" []) DATA_MARK) as [[d s]|[]]; try discriminate.
  destruct (deserialize_vars (vars d) s) as [[vs s']|]; [|discriminate].
  injection Hr as <-. simpl. apply Forall_forall. intros v Hin.
  apply list_elem_of_In, in_map_iff in Hin as (v0 & <- & _).
  apply mark_read_and_to_send_marked.
Qed.

Lemma is_valid_false_iff (name dataset : string) (w : world) (f : file) :
  fs w !! name = Some f ->
  is_valid name dataset w = false
  <-> f_data f = "" \/ exists g, fs w !! dataset = Some g /\ (f_mtime f < f_mtime g)%Z.
Proof.
  intros Hf. unfold is_valid, stat. rewrite Hf. cbn.
  destruct (f_data f) as [|c rest] eqn:Hd; cbn.
  - split; auto.
  - destruct (fs w !! dataset) as [g|]; cbn.
    + destruct (Z.ltb_spec (f_mtime f) (f_mtime g)) as [Hlt|Hge].
      * split; [right; eauto | reflexivity].
      * split; [discriminate|]. intros [Hd'|(g' & Hg & Hlt)]; [discriminate|].
        injection Hg as ->. lia.
    + rewrite Z.ltb_irrefl. split; [discriminate|].
      intros [Hd'|(g' & Hg & _)]; discriminate.
Qed.

Lemma is_valid_missing (name dataset : string) (w : world) :
  fs w !! name = None -> is_valid name dataset w = false.
Proof. intros Hf. unfold is_valid, stat. rewrite Hf. reflexivity. Qed.

(** The three ways [get_or_cache_dataset] returns a dataset, path by
    path. On a hit of the first probe the dataset decoded from the entry
    is returned under the file name of the original dataset. When the
    first probe misses and [write_dataset_to_cache] returns a dataset, that
    dataset is returned as it is: it is the result of the function
    clauses exactly as the evaluator returned it, and its file name is the
    one the evaluator gave it. When the write returns null, the result of
    the second probe, which starts from the slot recorded by the first, is
    returned, again under the file name of the original dataset. *)
Lemma get_or_cache_dataset_paths (dds : DDS) (constraint : string) (w : world)
  (r1 : option DDS) (n1 : string) (w1 : world) :
  load_from_cache (get_resource_id dds constraint) (base_name dds constraint) w
  = (Ok (r1, n1), w1) ->
  match r1 with
  | Some d1 =>
      get_or_cache_dataset dds constraint w
      = (Ok (Some (set_filename (filename dds) d1)), w1)
  | None =>
      forall r2 w2,
        write_dataset_to_cache dds (get_resource_id dds constraint) constraint n1 w1
        = (Ok r2, w2) ->
        match r2 with
        | Some d2 =>
            get_or_cache_dataset dds constraint w = (Ok (Some d2), w2)
            /\ exists func_eval dds1 dds2,
                 parse_constraint constraint dds = Ok (func_eval, dds1)
                 /\ eval_function_clauses func_eval dds1 = Ok (d2, dds2)
        | None =>
            forall r3 n3 w3,
              load_from_cache (get_resource_id dds constraint) n1 w2 = (Ok (r3, n3), w3) ->
              get_or_cache_dataset dds constraint w
              = (Ok (option_map (set_filename (filename dds)) r3), w3)
        end
  end.
Proof.
  intros Hp1. unfold get_or_cache_dataset.
  change (filename dds +:+ "#" +:+ constraint) with (get_resource_id dds constraint).
  change (get_cache_file_name (decimal (str_hash (get_resource_id dds constraint))))
    with (base_name dds constraint).
  rewrite (bind_Ok _ _ _ _ _ Hp1). cbv beta iota.
  destruct r1 as [d1|]; [reflexivity|].
  intros r2 w2 Hwrite. rewrite (bind_Ok _ _ _ _ _ Hwrite). destruct r2 as [d2|].
  - split; [reflexivity|]. apply (write_dataset_to_cache_result _ _ _ _ _ _ _ Hwrite).
  - intros r3 n3 w3 Hp3. rewrite (bind_Ok _ _ _ _ _ Hp3). destruct r3; reflexivity.
Qed.

Lemma create_and_lock_trace (name : string) (w : world) (created : bool) (w' : world) :
  create_and_lock name w = (Ok created, w') ->
  calls_since w w' = [create_and_lock_call name created].
Proof.
  unfold create_and_lock, calls_since.
  destruct (fs (tick w) !! name); intros Hrun; injection Hrun as <- <-; cbn;
    rewrite trace_tick; rewrite drop_app_length; reflexivity.
Qed.

(** C9. [get_or_cache_dataset] can return null: when the first probe
    reports a miss and records a slot, [create_and_lock] on that slot
    fails because the file exists by then, so that [write_dataset_to_cache]
    returns null having made no other call, and the second probe reports a
    miss too, the call returns null. *)
Theorem get_or_cache_dataset_null (dds : DDS) (constraint : string)
  (w w1 w2 w3 : world) (slot slot' : string) :
  load_from_cache (get_resource_id dds constraint) (base_name dds constraint) w
  = (Ok (None, slot), w1) ->
  create_and_lock slot w1 = (Ok false, w2) ->
  load_from_cache (get_resource_id dds constraint) slot w2 = (Ok (None, slot'), w3) ->
  get_or_cache_dataset dds constraint w = (Ok None, w3)
  /\ write_dataset_to_cache dds (get_resource_id dds constraint) constraint slot w1
     = (Ok None, w2)
  /\ calls_since w1 w2 = [create_and_lock_call slot false].
Proof.
  intros Hp1 Hc Hp2.
  assert (Hw : write_dataset_to_cache dds (get_resource_id dds constraint) constraint slot w1
               = (Ok None, w2)).
  { unfold write_dataset_to_cache. rewrite (bind_Ok _ _ _ _ _ Hc). reflexivity. }
  split; [|split; [exact Hw | apply (create_and_lock_trace _ _ _ _ Hc)]].
  unfold get_or_cache_dataset.
  change (filename dds +:+ "#" +:+ constraint) with (get_resource_id dds constraint).
  change (get_cache_file_name (decimal (str_hash (get_resource_id dds constraint))))
    with (base_name dds constraint).
  rewrite (bind_Ok _ _ _ _ _ Hp1). cbv beta iota.
  rewrite (bind_Ok _ _ _ _ _ Hw). cbv beta iota.
  rewrite (bind_Ok _ _ _ _ _ Hp2). reflexivity.
Qed.

(** C10. [load_from_cache] compares the resource identifier with a header
    line read into a buffer of 4096 bytes, of which at most 4095 characters
    are read; so for a resource identifier of 4096 bytes or more no entry
    is ever reported as a hit, whatever the cache holds. *)
Theorem long_resource_id_never_hits (resource_id cache_file_name : string) (w : world)
  (d : DDS) (name : string) (w' : world) :
  (4096 <= String.length resource_id)%nat ->
  load_from_cache resource_id cache_file_name w <> (Ok (Some d, name), w').
Proof. intros Hlen. apply load_from_cache_loop_long, Hlen. Qed.

End Facts.

(** * Concrete runs *)

Import Toy Scenario.

Lemma can_be_cached_iff_witness :
  (string_size C < 2 ^ 63)%Z /\ (string_size (filename D) < 2 ^ 63)%Z
  /\ (can_be_cached D C = true <-> (String.length (get_resource_id D C) <= 4097)%nat).
Proof.
  split; [vm_compute; reflexivity|]. split; [vm_compute; reflexivity|].
  apply (can_be_cached_iff D C); vm_compute; reflexivity.
Defined.

(** C2, as stated, fails: a file name of 4095 bytes with a constraint of
    one byte is cacheable, and its resource identifier has 4097 bytes. *)
Lemma can_be_cached_4097 : ~ cacheable_iff_4096 long_name C_long.
Proof.
  intros [Hl _].
  assert (Hc : can_be_cached long_name C_long = true) by (vm_compute; reflexivity).
  specialize (Hl Hc). revert Hl. vm_compute. lia.
Qed.

(** C1 (code bug). The first request for [D] and [C] answers with the
    result of the function, but the entry it writes holds the descriptor
    and the payload of the dataset the function was evaluated on; the
    second request is a hit on that entry and answers with the variable
    [u] of [D], not with the function's result. *)
Theorem cache_hit_differs_from_first_answer :
  (get_or_cache_dataset D C w0).1 = Ok (Some function_result)
  /\ (get_or_cache_dataset D C w_cached).1 = Ok (Some (set_filename "/data/f.nc" decoded))
  /\ vars (set_filename "/data/f.nc" decoded) <> vars function_result
  /\ (exists f, fs w_cached !! slot = Some f
                /\ f_data f = entry_text rid ("Bu" +:+ endl) "7")
  /\ payload_of (vars function_result) function_result = Ok "r"
  /\ payload_of (vars D) D = Ok "7".
Proof.
  split; [vm_compute; reflexivity|]. split; [vm_compute; reflexivity|].
  split; [discriminate|]. split; [|split; vm_compute; reflexivity].
  eexists. split; vm_compute; reflexivity.
Qed.

(** C3 (code bug). When the output stream cannot be opened after
    [create_and_lock] has succeeded, [write_dataset_to_cache] throws its
    internal error from the guard that stands before the [try] block: its
    only calls are [create_and_lock] and the failed open, nothing is
    closed, purged or unlocked, the exclusive lock is still held and the
    empty file is still there, so that the claim fails at this input. The
    sibling path does what this one misses: the exception of the function
    that fails, thrown inside the [try] block, is followed by the three
    calls of the [catch] block, after which the lock is released and the
    file is gone. *)
Theorem open_failure_keeps_lock :
  (exists w1 w',
     create_and_lock slot w_chmod = (Ok true, w1)
     /\ write_dataset_to_cache D rid C slot w_chmod
        = (Throw (BESInternalError "Could not open 'rc20_0' to write cached response."), w')
     /\ calls_since w_chmod w' = [create_and_lock_call slot true; ofstream_open_call slot false]
     /\ locks w' !! slot = Some Exclusive
     /\ exists f, fs w' !! slot = Some f /\ f_data f = "")
  /\ ~ cleans_up_after_any_throw D rid C slot w_chmod
  /\ (exists w',
        write_dataset_to_cache D rid_fail C_fail slot_fail w0
        = (Throw (libdap_Error "fail(): no such function"), w')
        /\ calls_since w_thrown w' = cleanup_calls slot_fail
        /\ locks w' !! slot_fail = None
        /\ fs w' !! slot_fail = None).
Proof.
  split; [|split].
  - eexists _, _. split; [vm_compute; reflexivity|]. split; [vm_compute; reflexivity|].
    split; [vm_compute; reflexivity|]. split; [vm_compute; reflexivity|].
    eexists. split; vm_compute; reflexivity.
  - intros Hc.
    destruct (Hc (create_and_lock slot w_chmod).2
                (BESInternalError "Could not open 'rc20_0' to write cached response.")
                (write_dataset_to_cache D rid C slot w_chmod).2) as [_ Hl];
      [vm_compute; reflexivity | vm_compute; reflexivity |].
    vm_compute in Hl. discriminate.
  - eexists. split; [vm_compute; reflexivity|]. split; [vm_compute; reflexivity|].
    split; vm_compute; reflexivity.
Qed.

Lemma load_from_cache_probing_witness :
  quiet w_cached
  /\ (exists w', load_from_cache rid' (base_name D C') w_cached = (Ok (None, "rc20_1"), w')
                 /\ forall j, (j < 1)%N -> locks w' !! candidate (base_name D C') j = None)
  /\ (exists w', load_from_cache rid (base_name D C) w_cached = (Ok (Some decoded, "rc20"), w')
                 /\ forall j, (j <= 0)%N -> locks w' !! candidate (base_name D C) j = None).
Proof.
  split; [reflexivity|].
  destruct (load_from_cache_probing rid' (base_name D C') w_cached eq_refl) as (Hmiss & _).
  destruct (load_from_cache_probing rid (base_name D C) w_cached eq_refl) as (_ & Hhit & _).
  split.
  - apply (Hmiss 1%N); [unfold max_collisions; lia | | vm_compute; reflexivity].
    intros j Hj. assert (j = 0%N) as -> by lia.
    eexists. split; [vm_compute; reflexivity|]. vm_compute. discriminate.
  - eapply (Hhit 0%N); [unfold max_collisions; lia | intros j Hj; lia | | |];
      vm_compute; reflexivity.
Defined.

(** C4, as stated, fails: an entry whose first line is the resource
    identifier followed by a NUL and more text is returned as a hit,
    although its first line is not the resource identifier. *)
Lemma nul_in_first_line_is_a_hit : ~ hit_only_on_first_line rid (base_name D C) w_nul.
Proof.
  intros Hc.
  destruct (Hc decoded (base_name D C) (load_from_cache rid (base_name D C) w_nul).2)
    as (k & f & Hf & Hl); [vm_compute; reflexivity|].
  change (fs w_nul) with (<["/data/f.nc" := data_file]> ({[slot := nul_entry]} : gmap string file))
    in Hf.
  apply lookup_insert_Some in Hf as [[_ <-]|[_ Hf]].
  - vm_compute in Hl. discriminate.
  - apply lookup_singleton_Some in Hf as [_ <-]. vm_compute in Hl. discriminate.
Qed.

Lemma entry_starts_with_resource_id_witness :
  quiet w0
  /\ write_dataset_to_cache D rid C slot w0
     = (Ok (Some function_result), (write_dataset_to_cache D rid C slot w0).2)
  /\ exists f rest,
       fs (write_dataset_to_cache D rid C slot w0).2 !! slot = Some f
       /\ f_data f = rid +:+ endl +:+ rest
       /\ (has_char newline rid = false -> first_line (f_data f) = rid).
Proof.
  split; [reflexivity|]. split; [vm_compute; reflexivity|].
  apply (entry_starts_with_resource_id D rid C slot w0 function_result);
    [reflexivity | vm_compute; reflexivity].
Defined.

(** C5, as stated, fails: for a dataset whose file name holds a line
    break the write succeeds and the first line of the entry is only the
    part of the resource identifier before the break. *)
Lemma first_line_is_not_resource_id : ~ first_line_is_resource_id D_nl rid_nl C "rc21_0" w0.
Proof.
  intros Hc.
  destruct (Hc function_result (write_dataset_to_cache D_nl rid_nl C "rc21_0" w0).2)
    as (f & Hf & Hl); [vm_compute; reflexivity|].
  vm_compute in Hf. injection Hf as <-. vm_compute in Hl. discriminate.
Qed.

Lemma read_cached_data_marks_witness :
  read_cached_data entry_stream
  = Ok (mk_DDS "" [mk_BaseType "u" dods_byte_c true true "7" no_row [];
                   mk_BaseType "s" dods_sequence_c true true "ab" no_row []])
  /\ Forall marked
       [mk_BaseType "u" dods_byte_c true true "7" no_row [];
        mk_BaseType "s" dods_sequence_c true true "ab" no_row []].
Proof.
  split; [vm_compute; reflexivity|].
  apply (read_cached_data_marks entry_stream
           (mk_DDS "" [mk_BaseType "u" dods_byte_c true true "7" no_row [];
                       mk_BaseType "s" dods_sequence_c true true "ab" no_row []])).
  vm_compute; reflexivity.
Defined.

(** C7 (code bug). After the entry for [D] and [C] has been cached and
    the dataset's file has been touched, so that it is newer than the
    entry, [is_valid] reports the entry invalid; [get_or_cache_dataset],
    which does not call [is_valid], returns the entry as a hit: it makes
    the three calls of a probe on the entry, writes nothing and leaves
    every file as it was, so that the claim fails at this input. An entry
    of zero bytes, as [create_and_lock] leaves it, is reported invalid
    too. *)
Theorem stale_entry_is_a_hit :
  (exists f g,
     fs w_touched !! slot = Some f /\ fs w_touched !! filename D = Some g
     /\ (f_mtime f < f_mtime g)%Z)
  /\ is_valid slot (filename D) w_cached = true
  /\ is_valid slot (filename D) w_touched = false
  /\ (get_or_cache_dataset D C w_touched).1 = Ok (Some (set_filename (filename D) decoded))
  /\ calls_since w_touched (get_or_cache_dataset D C w_touched).2
     = [get_read_lock_call slot true; ifstream_open_call slot; unlock_and_close_call slot]
  /\ fs (get_or_cache_dataset D C w_touched).2 = fs w_touched
  /\ ~ newer_dataset_invalidates D C w_touched
  /\ (exists f, fs w_created !! slot_fail = Some f /\ f_data f = "")
  /\ is_valid slot_fail (filename D) w_created = false.
Proof.
  split; [eexists _, _; split; [|split]; vm_compute; reflexivity|].
  split; [vm_compute; reflexivity|]. split; [vm_compute; reflexivity|].
  split; [vm_compute; reflexivity|]. split; [vm_compute; reflexivity|].
  split; [vm_compute; reflexivity|].
  split; [|split; [eexists; split; vm_compute; reflexivity | vm_compute; reflexivity]].
  intros Hc.
  destruct (Hc (mk_file (entry_text rid ("Bu" +:+ endl) "7") 1009 1002 true)
              (mk_file "netcdf" 5000 100 false)
              ltac:(vm_compute; reflexivity) ltac:(vm_compute; reflexivity)
              ltac:(vm_compute; reflexivity)
              (get_or_cache_dataset D C w_touched).1 (get_or_cache_dataset D C w_touched).2)
    as (text & Hin); [vm_compute; reflexivity|].
  vm_compute in Hin. intuition discriminate.
Qed.

(** C8 (code bug). On the write path [get_or_cache_dataset] returns the
    dataset of the function clauses as the evaluator returned it, without
    setting its file name: the first request for [D] and [C] answers with
    a dataset whose file name is the evaluator's, the empty one, not
    ["/data/f.nc"], so that the claim fails at this input. The sibling
    path does what this one misses: the second request, a hit, answers
    with a dataset under the file name of [D]. *)
Theorem write_path_keeps_evaluator_filename :
  get_or_cache_dataset D C w0 = (Ok (Some function_result), w_cached)
  /\ parse_constraint C D = Ok (C, D)
  /\ eval_function_clauses C D = Ok (function_result, D)
  /\ filename function_result = ""
  /\ filename D = "/data/f.nc"
  /\ (exists d,
        (get_or_cache_dataset D C w_cached).1 = Ok (Some d) /\ filename d = filename D)
  /\ ~ returns_original_filename D C w0.
Proof.
  split; [vm_compute; reflexivity|]. split; [vm_compute; reflexivity|].
  split; [vm_compute; reflexivity|]. split; [reflexivity|]. split; [reflexivity|].
  split; [eexists; split; vm_compute; reflexivity|].
  intros Hc. specialize (Hc function_result w_cached ltac:(vm_compute; reflexivity)).
  vm_compute in Hc. discriminate.
Qed.

Lemma get_or_cache_dataset_null_witness :
  load_from_cache (get_resource_id D C) (base_name D C) w_race = (Ok (None, slot), w_race1)
  /\ create_and_lock slot w_race1 = (Ok false, w_race2)
  /\ load_from_cache (get_resource_id D C) slot w_race2 = (Ok (None, "rc20_0_0"), w_race3)
  /\ get_or_cache_dataset D C w_race = (Ok None, w_race3)
  /\ write_dataset_to_cache D (get_resource_id D C) C slot w_race1 = (Ok None, w_race2)
  /\ calls_since w_race1 w_race2 = [create_and_lock_call slot false].
Proof.
  split; [vm_compute; reflexivity|]. split; [vm_compute; reflexivity|].
  split; [vm_compute; reflexivity|].
  apply (get_or_cache_dataset_null D C w_race w_race1 w_race2 w_race3 slot "rc20_0_0");
    vm_compute; reflexivity.
Defined.

Lemma long_resource_id_never_hits_witness :
  (4096 <= String.length rid_long)%nat
  /\ load_from_cache rid_long (base_name long_name C_long) w_long
     <> (Ok (Some decoded, base_name long_name C_long), w_long).
Proof.
  split; [vm_compute; lia|].
  apply (long_resource_id_never_hits rid_long (base_name long_name C_long) w_long decoded
           (base_name long_name C_long) w_long).
  vm_compute; lia.
Defined.

(** The cacheability test admits such identifiers, and the entry written
    for one is passed over by the next request, which writes another. *)
Lemma long_resource_id_is_cached_again :
  can_be_cached long_name C_long = true
  /\ String.length rid_long = 4097%nat
  /\ (exists f, fs w_long !! "rc4097_0" = Some f /\ first_line (f_data f) = rid_long)
  /\ (load_from_cache rid_long (base_name long_name C_long) w_long).1 = Ok (None, "rc4097_1").
Proof.
  split; [vm_compute; reflexivity|]. split; [vm_compute; reflexivity|].
  split; [|vm_compute; reflexivity].
  eexists. split; vm_compute; reflexivity.
Qed.

(** * Further properties of the cache *)

Section MoreFacts.
Context `{Collaborators}.

(** ** The resource identifier *)

Lemma append_cons (x : ascii) (a b : string) : String x a +:+ b = String x (a +:+ b).
Proof. reflexivity. Qed.

Lemma append_hash_inj (a a' c c' : string) :
  has_char "#" a = false -> has_char "#" a' = false ->
  a +:+ "#" +:+ c = a' +:+ "#" +:+ c' -> a = a' /\ c = c'.
Proof.
  revert a'. induction a as [|x a IH]; intros [|x' a'] Ha Ha' Heq.
  - change (String "#" c = String "#" c') in Heq. injection Heq as ->. auto.
  - change (String "#" c = String x' (a' +:+ "#" +:+ c')) in Heq. injection Heq as <- _.
    cbn [has_char] in Ha'. rewrite Ascii.eqb_refl in Ha'. discriminate.
  - change (String x (a +:+ "#" +:+ c) = String "#" c') in Heq. injection Heq as -> _.
    cbn [has_char] in Ha. rewrite Ascii.eqb_refl in Ha. discriminate.
  - rewrite !append_cons in Heq. injection Heq as -> Heq.
    cbn [has_char] in Ha, Ha'. apply orb_false_elim in Ha as [_ Ha].
    apply orb_false_elim in Ha' as [_ Ha'].
    destruct (IH a' Ha Ha' Heq) as [-> ->]. auto.
Qed.

(** X1. Two requests on datasets whose file names hold no ["#"] have the
    same resource identifier only when they have the same file name and the
    same constraint. *)
Theorem get_resource_id_inj (dds dds' : DDS) (constraint constraint' : string) :
  has_char "#" (filename dds) = false ->
  has_char "#" (filename dds') = false ->
  get_resource_id dds constraint = get_resource_id dds' constraint' ->
  filename dds = filename dds' /\ constraint = constraint'.
Proof. unfold get_resource_id. apply append_hash_inj. Qed.

(** ** [is_valid] *)

(** X2. [is_valid] accepts an entry exactly when the entry exists, is not
    empty, and the dataset, if it is a file at all, is not newer than the
    entry: a dataset that cannot be stat'ed leaves the entry valid, and so
    do equal modification times. *)
Theorem is_valid_true_iff (cache_file_name dataset : string) (w : world) :
  is_valid cache_file_name dataset w = true
  <-> exists f,
        fs w !! cache_file_name = Some f
        /\ f_data f <> ""
        /\ forall g, fs w !! dataset = Some g -> (f_mtime g <= f_mtime f)%Z.
Proof.
  unfold is_valid, stat. destruct (fs w !! cache_file_name) as [f|] eqn:Hf; cbn.
  - destruct (f_data f) as [|c rest] eqn:Hd; cbn.
    + split; [discriminate|]. intros (f' & Hf' & Hne & _). injection Hf' as <-.
      rewrite Hd in Hne. contradiction.
    + destruct (fs w !! dataset) as [g|] eqn:Hg; cbn.
      * destruct (Z.ltb_spec (f_mtime f) (f_mtime g)) as [Hlt|Hge].
        -- split; [discriminate|]. intros (f' & Hf' & _ & Hle). injection Hf' as <-.
           specialize (Hle g eq_refl). lia.
        -- split; [|reflexivity]. intros _. exists f. rewrite Hd.
           split; [reflexivity|]. split; [discriminate|].
           intros g' Hg'. injection Hg' as <-. exact Hge.
      * rewrite Z.ltb_irrefl. split; [|reflexivity]. intros _. exists f. rewrite Hd.
        split; [reflexivity|]. split; [discriminate|]. intros g' Hg'. discriminate.
  - split; [discriminate|]. intros (f & Hf' & _). discriminate.
Qed.

(** ** [read_cached_data] *)

Lemma deserialize_vars_length (vs : list BaseType) :
  forall (um : istream) (vs' : list BaseType) (um' : istream),
    deserialize_vars vs um = Ok (vs', um') -> length vs' = length vs.
Proof.
  induction vs as [|v vs IH]; intros um vs' um' Hd; cbn in Hd.
  - injection Hd as <- _. reflexivity.
  - destruct (deserialize v um) as [[v1 um1]|]; [|discriminate].
    destruct (deserialize_vars vs um1) as [[vs1 um2]|] eqn:Hrest; [|discriminate].
    injection Hd as <- _. cbn. f_equal. apply (IH _ _ _ Hrest).
Qed.

Lemma mark_read_and_to_send_content (v : BaseType) :
  same_content v (mark_read_and_to_send v).
Proof.
  unfold mark_read_and_to_send, same_content. destruct v as [n t r s x row ms]. cbn.
  destruct (decide (t = dods_sequence_c)); cbn; repeat split; try reflexivity.
  apply length_map.
Qed.

(** X3. A dataset comes out of [read_cached_data] only when the descriptor
    was parsed and every variable it declares was deserialized; the dataset
    then has exactly those variables, in order, with the names, types and
    values deserialization gave them, and the file name the parser left. *)
Theorem read_cached_data_all_or_nothing (cached_data : istream) (fdds : DDS) :
  read_cached_data cached_data = Ok fdds ->
  exists d s vs s',
    intern_stream cached_data (mk_DDS "" []) DATA_MARK = Ok (d, s)
    /\ deserialize_vars (vars d) s = Ok (vs, s')
    /\ filename fdds = filename d
    /\ length (vars fdds) = length (vars d)
    /\ Forall2 same_content vs (vars fdds).
Proof.
  unfold read_cached_data. intros Hr.
  destruct (intern_stream cached_data (mk_DDS "" []) DATA_MARK) as [[d s]|[]]; try discriminate.
  destruct (deserialize_vars (vars d) s) as [[vs s']|] eqn:Hd; [|discriminate].
  injection Hr as <-. exists d, s, vs, s'. cbn.
  split; [reflexivity|]. split; [exact Hd|]. split; [reflexivity|]. split.
  - rewrite length_map. apply (deserialize_vars_length _ _ _ _ Hd).
  - clear Hd. induction vs as [|v vs IH]; cbn; constructor.
    + apply mark_read_and_to_send_content.
    + exact IH.
Qed.

(** ** The header written and the header read *)

Lemma extract_line_no_newline (buf : string) (room : nat) :
  has_char newline (extract_line buf room).1.1 = false.
Proof.
  revert room. induction buf as [|c buf IH]; intros room; cbn [extract_line]; [reflexivity|].
  destruct (Ascii.eqb c newline) eqn:Hc; [reflexivity|].
  destruct room as [|room]; [reflexivity|].
  specialize (IH room). destruct (extract_line buf room) as [[l r] st].
  cbn [fst has_char] in *.
  rewrite (Ascii.eqb_sym newline c), Hc. exact IH.
Qed.

Lemma getline_no_newline (s : istream) (n : nat) : has_char newline (getline s n).1 = false.
Proof.
  unfold getline. destruct (good s); [|reflexivity].
  pose proof (extract_line_no_newline (is_buf s) (n - 1)) as Hl.
  destruct (extract_line (is_buf s) (n - 1)) as [[l r] st]. cbn [fst] in Hl.
  destruct st; exact Hl.
Qed.

Lemma c_str_keeps_absent (c : ascii) (line : string) :
  has_char c line = false -> has_char c (c_str line) = false.
Proof.
  induction line as [|x line IH]; cbn [has_char c_str]; [reflexivity|].
  intros Hn. apply orb_false_elim in Hn as [Hx Hn].
  destruct (Ascii.eqb x nul); [reflexivity|].
  cbn [has_char]. rewrite Hx. cbn. apply IH, Hn.
Qed.

Lemma c_str_without_nul (line : string) : has_char nul (c_str line) = false.
Proof.
  induction line as [|x line IH]; cbn [has_char c_str]; [reflexivity|].
  destruct (Ascii.eqb x nul) eqn:Hx; [reflexivity|].
  cbn [has_char]. rewrite (Ascii.eqb_sym nul x), Hx. exact IH.
Qed.

(** The header read from a file that begins with an identifier and a line
    break is that identifier exactly when the identifier is recognisable. *)
Lemma header_of_entry (f : file) (resource_id rest : string) :
  f_data f = resource_id +:+ endl +:+ rest ->
  header f = resource_id <-> recognisable resource_id.
Proof.
  intros Hd. split.
  - intros Hh. unfold recognisable. rewrite <- Hh. unfold header, header_stream.
    split; [|split].
    + pose proof (header_read_length (mk_istream (f_data f) false false)). lia.
    + apply c_str_keeps_absent, getline_no_newline.
    + apply c_str_without_nul.
  - intros (Hlen & Hnl & Hnul).
    assert (Hfl : first_line (f_data f) = resource_id)
      by (rewrite Hd; apply first_line_append, Hnl).
    rewrite <- Hfl. apply header_first_line; rewrite Hfl; assumption.
Qed.

(** X4. With no other process active, the entry a successful
    [write_dataset_to_cache] leaves has, as [load_from_cache] reads it, the
    header of the resource identifier it was written for exactly when the
    identifier has fewer than 4096 bytes and holds no line break and no
    NUL. *)
Theorem written_entry_header (dds : DDS) (resource_id func_ce name : string)
  (w : world) (fdds : DDS) (w' : world) :
  quiet w ->
  write_dataset_to_cache dds resource_id func_ce name w = (Ok (Some fdds), w') ->
  exists f,
    fs w' !! name = Some f
    /\ (header f = resource_id <-> recognisable resource_id).
Proof.
  intros Hq Hrun.
  destruct (write_dataset_to_cache_entry _ _ _ _ _ _ _ Hq Hrun)
    as (func_eval & dds1 & dds2 & xml & p & _ & _ & _ & _ & _ & f & Hf & Hd).
  exists f. split; [exact Hf|].
  apply (header_of_entry f resource_id (xml +:+ DATA_MARK +:+ endl +:+ p)). exact Hd.
Qed.

(** ** Probing, call by call *)

Lemma get_read_lock_quiet_log (name : string) (f : file) (w : world) :
  quiet w -> fs w !! name = Some f ->
  exists w',
    get_read_lock name w = (Ok true, w')
    /\ quiet w' /\ fs w' = fs w
    /\ trace w' = (trace w ++ [get_read_lock_call name true])%list.
Proof.
  intros Hq Hf. unfold get_read_lock. rewrite (tick_quiet w Hq). cbn. rewrite Hf.
  eexists. split; [reflexivity|]. repeat split.
Qed.

Lemma ifstream_open_quiet_log (name : string) (w : world) :
  quiet w ->
  exists w',
    ifstream_open name w
    = (Ok (match fs w !! name with
           | Some f => mk_istream (f_data f) false false
           | None => mk_istream "" false true
           end), w')
    /\ quiet w' /\ fs w' = fs w
    /\ trace w' = (trace w ++ [ifstream_open_call name])%list.
Proof.
  intros Hq. unfold ifstream_open. rewrite (tick_quiet w Hq). cbn.
  eexists. split; [reflexivity|]. repeat split.
Qed.

Lemma unlock_and_close_quiet_log (name : string) (w : world) :
  quiet w ->
  exists w',
    unlock_and_close name w = (Ok tt, w')
    /\ quiet w' /\ fs w' = fs w
    /\ trace w' = (trace w ++ [unlock_and_close_call name])%list.
Proof.
  intros Hq. unfold unlock_and_close. rewrite (tick_quiet w Hq). cbn.
  eexists. split; [reflexivity|]. repeat split.
Qed.

(** One iteration on an entry of another resource. *)
Lemma probe_collision_calls (resource_id cache_file_name : string) (fuel : nat) (s : N)
  (w : world) :
  quiet w -> (s <= max_collisions)%N -> collides w resource_id cache_file_name s ->
  exists w',
    load_from_cache_loop (S fuel) resource_id cache_file_name s w
    = load_from_cache_loop fuel resource_id cache_file_name (s + 1) w'
    /\ quiet w' /\ fs w' = fs w
    /\ trace w' = (trace w ++ probe_calls cache_file_name s)%list.
Proof.
  intros Hq Hs (f & Hf & Hne).
  rewrite load_from_cache_loop_unfold.
  replace (max_collisions <? s)%N with false by (symmetry; apply N.ltb_ge; exact Hs).
  cbv beta iota zeta.
  destruct (get_read_lock_quiet_log _ f w Hq Hf) as (w1 & Hg & Hq1 & Hfs1 & Ht1).
  rewrite (bind_Ok _ _ _ _ _ Hg). cbn [negb]. cbv beta iota.
  destruct (ifstream_open_quiet_log (candidate cache_file_name s) w1 Hq1)
    as (w2 & Ho & Hq2 & Hfs2 & Ht2).
  rewrite (bind_Ok _ _ _ _ _ Ho). rewrite Hfs1, Hf.
  fold (header_stream f). unfold header in Hne.
  destruct (header_stream f) as [line s2]. simpl fst in Hne.
  replace (String.eqb (c_str line) resource_id) with false
    by (symmetry; apply String.eqb_neq; exact Hne).
  unfold bind at 1, ret at 1.
  destruct (unlock_and_close_quiet_log (candidate cache_file_name s) w2 Hq2)
    as (w3 & Hu & Hq3 & Hfs3 & Ht3).
  rewrite (bind_Ok _ _ _ _ _ Hu).
  exists w3. split; [reflexivity|]. split; [exact Hq3|]. split; [congruence|].
  rewrite Ht3, Ht2, Ht1, <- !app_assoc. reflexivity.
Qed.

(** [k] iterations on [k] entries of other resources. *)
Lemma probe_skip_calls (resource_id cache_file_name : string) (k : nat) :
  forall (fuel : nat) (s : N) (w : world),
    quiet w -> (s + N.of_nat k <= max_collisions + 1)%N ->
    (forall j, (s <= j < s + N.of_nat k)%N -> collides w resource_id cache_file_name j) ->
    exists w',
      load_from_cache_loop (k + fuel) resource_id cache_file_name s w
      = load_from_cache_loop fuel resource_id cache_file_name (s + N.of_nat k) w'
      /\ quiet w' /\ fs w' = fs w
      /\ trace w' = (trace w ++ passed_over cache_file_name s k)%list.
Proof.
  induction k as [|k IH]; intros fuel s w Hq Hs Hc.
  - exists w. rewrite N.add_0_r. cbn. rewrite app_nil_r. auto.
  - destruct (probe_collision_calls resource_id cache_file_name (k + fuel) s w Hq)
      as (w1 & Hstep & Hq1 & Hfs1 & Ht1); [lia | apply Hc; lia |].
    destruct (IH fuel (s + 1)%N w1 Hq1) as (w2 & Hrest & Hq2 & Hfs2 & Ht2); [lia | |].
    { intros j Hj. apply (collides_same_files w); [exact Hfs1 | apply Hc; lia]. }
    exists w2. split.
    { change (S k + fuel)%nat with (S (k + fuel)). rewrite Hstep, Hrest. f_equal. lia. }
    split; [exact Hq2|]. split; [congruence|].
    rewrite Ht2, Ht1, <- app_assoc. reflexivity.
Qed.

(** One iteration on the entry of the resource, when decoding fails. *)
Lemma probe_decode_failure (resource_id cache_file_name : string) (fuel : nat) (s : N)
  (w : world) (f : file) (e : exn) :
  quiet w -> (s <= max_collisions)%N ->
  fs w !! candidate cache_file_name s = Some f -> header f = resource_id ->
  read_cached_data (header_stream f).2 = Throw e ->
  exists w',
    load_from_cache_loop (S fuel) resource_id cache_file_name s w = (Throw e, w')
    /\ quiet w' /\ fs w' = fs w
    /\ trace w' = (trace w ++ [get_read_lock_call (candidate cache_file_name s) true;
                               ifstream_open_call (candidate cache_file_name s)])%list.
Proof.
  intros Hq Hs Hf Hh Hr. rewrite load_from_cache_loop_unfold.
  replace (max_collisions <? s)%N with false by (symmetry; apply N.ltb_ge; exact Hs).
  cbv beta iota zeta.
  destruct (get_read_lock_quiet_log _ f w Hq Hf) as (w1 & Hg & Hq1 & Hfs1 & Ht1).
  rewrite (bind_Ok _ _ _ _ _ Hg). cbn [negb]. cbv beta iota.
  destruct (ifstream_open_quiet_log (candidate cache_file_name s) w1 Hq1)
    as (w2 & Ho & Hq2 & Hfs2 & Ht2).
  rewrite (bind_Ok _ _ _ _ _ Ho). rewrite Hfs1, Hf.
  fold (header_stream f). unfold header in Hh.
  destruct (header_stream f) as [line s2]. simpl fst in Hh. simpl snd in Hr.
  replace (String.eqb (c_str line) resource_id) with true
    by (symmetry; apply String.eqb_eq; exact Hh).
  unfold bind at 1 2, lift. rewrite Hr.
  exists w2. split; [reflexivity|]. split; [exact Hq2|]. split; [congruence|].
  rewrite Ht2, Ht1, <- app_assoc. reflexivity.
Qed.

(** One iteration on the entry of the resource, when decoding succeeds. *)
Lemma probe_match_calls (resource_id cache_file_name : string) (fuel : nat) (s : N)
  (w : world) (f : file) (d : DDS) :
  quiet w -> (s <= max_collisions)%N ->
  fs w !! candidate cache_file_name s = Some f -> header f = resource_id ->
  read_cached_data (header_stream f).2 = Ok d ->
  exists w',
    load_from_cache_loop (S fuel) resource_id cache_file_name s w
    = (Ok (Some d, cache_file_name), w')
    /\ quiet w' /\ fs w' = fs w
    /\ trace w' = (trace w ++ probe_calls cache_file_name s)%list.
Proof.
  intros Hq Hs Hf Hh Hr. rewrite load_from_cache_loop_unfold.
  replace (max_collisions <? s)%N with false by (symmetry; apply N.ltb_ge; exact Hs).
  cbv beta iota zeta.
  destruct (get_read_lock_quiet_log _ f w Hq Hf) as (w1 & Hg & Hq1 & Hfs1 & Ht1).
  rewrite (bind_Ok _ _ _ _ _ Hg). cbn [negb]. cbv beta iota.
  destruct (ifstream_open_quiet_log (candidate cache_file_name s) w1 Hq1)
    as (w2 & Ho & Hq2 & Hfs2 & Ht2).
  rewrite (bind_Ok _ _ _ _ _ Ho). rewrite Hfs1, Hf.
  fold (header_stream f). unfold header in Hh.
  destruct (header_stream f) as [line s2]. simpl fst in Hh. simpl snd in Hr.
  replace (String.eqb (c_str line) resource_id) with true
    by (symmetry; apply String.eqb_eq; exact Hh).
  unfold bind at 1 2, lift. rewrite Hr. unfold ret at 1.
  destruct (unlock_and_close_quiet_log (candidate cache_file_name s) w2 Hq2)
    as (w3 & Hu & Hq3 & Hfs3 & Ht3).
  rewrite (bind_Ok _ _ _ _ _ Hu).
  exists w3. split; [reflexivity|]. split; [exact Hq3|]. split; [congruence|].
  rewrite Ht3, Ht2, Ht1, <- !app_assoc. reflexivity.
Qed.

(** X5. With no other process active, when the entry whose header matches
    cannot be decoded, [load_from_cache] ends with the decoder's exception
    and does not reach [unlock_and_close] for that entry: after the three
    calls made on each candidate it passed over, its last two calls are
    the [get_read_lock] that succeeded on the entry and the opening of the
    entry for reading. No file changes. *)
Theorem decode_failure_skips_unlock (resource_id cache_file_name : string) (w : world)
  (k : N) (f : file) (e : exn) :
  quiet w -> (k <= max_collisions)%N ->
  (forall j, (j < k)%N -> collides w resource_id cache_file_name j) ->
  fs w !! candidate cache_file_name k = Some f ->
  header f = resource_id ->
  read_cached_data (header_stream f).2 = Throw e ->
  exists w',
    load_from_cache resource_id cache_file_name w = (Throw e, w')
    /\ calls_since w w'
       = (passed_over cache_file_name 0 (N.to_nat k)
          ++ [get_read_lock_call (candidate cache_file_name k) true;
              ifstream_open_call (candidate cache_file_name k)])%list
    /\ fs w' = fs w.
Proof.
  intros Hq Hk Hc Hf Hh Hr. unfold load_from_cache.
  destruct (probe_skip_calls resource_id cache_file_name (N.to_nat k)
              (S (N.to_nat max_collisions - N.to_nat k)) 0%N w Hq)
    as (w1 & Hskip & Hq1 & Hfs1 & Ht1); [lia | intros j Hj; apply Hc; lia |].
  replace (N.to_nat k + S (N.to_nat max_collisions - N.to_nat k))%nat
    with (S (N.to_nat max_collisions)) in Hskip by lia.
  rewrite Hskip. replace (0 + N.of_nat (N.to_nat k))%N with k in * by lia.
  destruct (probe_decode_failure resource_id cache_file_name
              (N.to_nat max_collisions - N.to_nat k) k w1 f e Hq1 Hk
              ltac:(congruence) Hh Hr) as (w2 & Hm & _ & Hfs2 & Ht2).
  exists w2. split; [exact Hm|]. split; [|congruence].
  unfold calls_since. rewrite Ht2, Ht1, <- app_assoc. apply drop_app_length.
Qed.

(** X9. With no other process active, a request whose entry is in the
    cache, in slot [k] behind [k] entries of other resources, and decodes,
    is answered from that entry: [get_or_cache_dataset] returns the
    dataset decoded from it, under the file name of the dataset of the
    request; the calls it makes are the three calls of a probe on each of
    the slots 0 to [k] and no other, so that it neither creates nor
    writes a file, and no file changes. *)
Theorem cached_entry_answers_request (dds : DDS) (constraint : string) (w : world)
  (k : N) (f : file) (d : DDS) :
  quiet w -> (k <= max_collisions)%N ->
  (forall j, (j < k)%N ->
     collides w (get_resource_id dds constraint) (base_name dds constraint) j) ->
  fs w !! candidate (base_name dds constraint) k = Some f ->
  header f = get_resource_id dds constraint ->
  read_cached_data (header_stream f).2 = Ok d ->
  exists w',
    get_or_cache_dataset dds constraint w = (Ok (Some (set_filename (filename dds) d)), w')
    /\ calls_since w w'
       = (passed_over (base_name dds constraint) 0 (N.to_nat k)
          ++ probe_calls (base_name dds constraint) k)%list
    /\ fs w' = fs w.
Proof.
  intros Hq Hk Hc Hf Hh Hr.
  destruct (probe_skip_calls (get_resource_id dds constraint) (base_name dds constraint)
              (N.to_nat k) (S (N.to_nat max_collisions - N.to_nat k)) 0%N w Hq)
    as (w1 & Hskip & Hq1 & Hfs1 & Ht1); [lia | intros j Hj; apply Hc; lia |].
  replace (N.to_nat k + S (N.to_nat max_collisions - N.to_nat k))%nat
    with (S (N.to_nat max_collisions)) in Hskip by lia.
  replace (0 + N.of_nat (N.to_nat k))%N with k in * by lia.
  destruct (probe_match_calls (get_resource_id dds constraint) (base_name dds constraint)
              (N.to_nat max_collisions - N.to_nat k) k w1 f d Hq1 Hk
              ltac:(rewrite Hfs1; exact Hf) Hh Hr) as (w2 & Hm & _ & Hfs2 & Ht2).
  exists w2. split; [|split; [|rewrite Hfs2; exact Hfs1]].
  - unfold get_or_cache_dataset.
    change (filename dds +:+ "#" +:+ constraint) with (get_resource_id dds constraint).
    change (get_cache_file_name (decimal (str_hash (get_resource_id dds constraint))))
      with (base_name dds constraint).
    assert (Hload : load_from_cache (get_resource_id dds constraint)
                      (base_name dds constraint) w
                    = (Ok (Some d, base_name dds constraint), w2))
      by (unfold load_from_cache; rewrite Hskip; exact Hm).
    rewrite (bind_Ok _ _ _ _ _ Hload). reflexivity.
  - unfold calls_since. rewrite Ht2, Ht1, <- app_assoc. apply drop_app_length.
Qed.

(** ** What probing does, in any state of the cache *)

Lemma get_read_lock_effect (name : string) (w : world) :
  exists held w',
    get_read_lock name w = (Ok held, w')
    /\ trace w' = (trace w ++ [get_read_lock_call name held])%list
    /\ locks w' = (if held then <[name := Shared]> (locks w) else locks w).
Proof.
  unfold get_read_lock. destruct (fs (tick w) !! name).
  - exists true. eexists. split; [reflexivity|]. cbn. rewrite trace_tick, locks_tick. auto.
  - exists false. eexists. split; [reflexivity|]. cbn. rewrite trace_tick, locks_tick. auto.
Qed.

Lemma ifstream_open_effect (name : string) (w : world) :
  exists s w',
    ifstream_open name w = (Ok s, w')
    /\ trace w' = (trace w ++ [ifstream_open_call name])%list
    /\ locks w' = locks w.
Proof.
  unfold ifstream_open. eexists _, _. split; [reflexivity|]. cbn.
  rewrite trace_tick, locks_tick. auto.
Qed.

Lemma unlock_and_close_effect (name : string) (w : world) :
  exists w',
    unlock_and_close name w = (Ok tt, w')
    /\ trace w' = (trace w ++ [unlock_and_close_call name])%list
    /\ locks w' = delete name (locks w).
Proof.
  unfold unlock_and_close. eexists. split; [reflexivity|]. cbn.
  rewrite trace_tick, locks_tick. auto.
Qed.

Lemma lookup_delete_insert_None {A} (m : gmap string A) (name n : string) (x : A) :
  m !! n = None -> delete name (<[name := x]> m) !! n = None.
Proof.
  intros Hn. rewrite delete_insert_eq.
  destruct (decide (name = n)) as [<-|Hne]; [apply lookup_delete_eq|].
  rewrite lookup_delete_ne by exact Hne. exact Hn.
Qed.

(** The shape of a run of the loop: the calls it makes, how many of them
    are [get_read_lock], the locks it leaves when it returns, and the name
    it leaves in [cache_file_name]. *)
Lemma load_from_cache_loop_shape (resource_id cache_file_name : string) (fuel : nat) :
  forall (s : N) (w : world) (r : result (option DDS * string)) (w' : world),
    load_from_cache_loop fuel resource_id cache_file_name s w = (r, w') ->
    exists calls,
      trace w' = (trace w ++ calls)%list
      /\ forallb is_probe_call calls = true
      /\ (length (List.filter is_get_read_lock_call calls) <= fuel)%nat
      /\ match r with
         | Ok (Some _, n) =>
             n = cache_file_name /\ forall m, locks w !! m = None -> locks w' !! m = None
         | Ok (None, n) =>
             (exists k, (s <= k <= max_collisions)%N /\ n = candidate cache_file_name k)
             /\ forall m, locks w !! m = None -> locks w' !! m = None
         | Throw _ => True
         end.
Proof.
  induction fuel as [|fuel IH]; intros s w r w' Hrun.
  - cbn in Hrun. exists []. rewrite app_nil_r.
    destruct (max_collisions <? s)%N; injection Hrun as <- <-; cbn; auto with lia.
  - rewrite load_from_cache_loop_unfold in Hrun.
    destruct (N.ltb_spec max_collisions s) as [Hlt|Hle].
    { injection Hrun as <- <-. exists []. rewrite app_nil_r. cbn. auto with lia. }
    cbv beta iota zeta in Hrun.
    destruct (get_read_lock_effect (candidate cache_file_name s) w)
      as (held & w1 & Hg & Ht1 & Hl1).
    rewrite (bind_Ok _ _ _ _ _ Hg) in Hrun. destruct held; cbn [negb] in Hrun; cbv beta iota in Hrun.
    2:{ injection Hrun as <- <-. exists [get_read_lock_call (candidate cache_file_name s) false].
        split; [exact Ht1|]. split; [reflexivity|]. split; [cbn; lia|]. split.
        - exists s. split; [lia | reflexivity].
        - intros m Hm. rewrite Hl1. exact Hm. }
    destruct (ifstream_open_effect (candidate cache_file_name s) w1) as (s1 & w2 & Ho & Ht2 & Hl2).
    rewrite (bind_Ok _ _ _ _ _ Ho) in Hrun.
    destruct (getline s1 (Z.to_nat max_cacheable_ce_len)) as [line s2].
    destruct (unlock_and_close_effect (candidate cache_file_name s) w2) as (w3 & Hu & Ht3 & Hl3).
    assert (Hlocks3 : forall m, locks w !! m = None -> locks w3 !! m = None).
    { intros m Hm. rewrite Hl3, Hl2, Hl1. apply lookup_delete_insert_None, Hm. }
    assert (Htrace3 : trace w3 = (trace w ++ [get_read_lock_call (candidate cache_file_name s) true;
                                              ifstream_open_call (candidate cache_file_name s);
                                              unlock_and_close_call (candidate cache_file_name s)])%list).
    { rewrite Ht3, Ht2, Ht1. rewrite <- !app_assoc. reflexivity. }
    destruct (String.eqb (c_str line) resource_id).
    + unfold bind at 1 2, lift in Hrun. destruct (read_cached_data s2) as [d|e].
      * unfold ret at 1 in Hrun. rewrite (bind_Ok _ _ _ _ _ Hu) in Hrun.
        injection Hrun as <- <-. eexists. split; [exact Htrace3|].
        split; [reflexivity|]. split; [cbn; lia|]. split; [reflexivity | exact Hlocks3].
      * injection Hrun as <- <-.
        exists [get_read_lock_call (candidate cache_file_name s) true;
                ifstream_open_call (candidate cache_file_name s)].
        split; [rewrite Ht2, Ht1, <- app_assoc; reflexivity|].
        split; [reflexivity|]. split; [cbn; lia | exact I].
    + unfold bind at 1, ret at 1 in Hrun. rewrite (bind_Ok _ _ _ _ _ Hu) in Hrun.
      destruct (IH _ _ _ _ Hrun) as (calls & Ht & Hp & Hn & Hr).
      exists ([get_read_lock_call (candidate cache_file_name s) true;
               ifstream_open_call (candidate cache_file_name s);
               unlock_and_close_call (candidate cache_file_name s)] ++ calls)%list.
      split; [rewrite Ht, Htrace3, <- app_assoc; reflexivity|].
      split; [cbn; exact Hp|]. split; [cbn; lia|].
      destruct r as [[[d|] n]|e]; [| |exact I].
      * destruct Hr as [Hn' Hl']. split; [exact Hn'|]. intros m Hm. apply Hl', Hlocks3, Hm.
      * destruct Hr as [(k & Hk & Hn') Hl']. split; [exists k; split; [lia | exact Hn']|].
        intros m Hm. apply Hl', Hlocks3, Hm.
Qed.


(** ** The locks a request leaves *)

Lemma create_and_lock_effect (name : string) (w : world) :
  exists created w',
    create_and_lock name w = (Ok created, w')
    /\ locks w' = (if created then <[name := Exclusive]> (locks w) else locks w).
Proof.
  unfold create_and_lock. destruct (fs (tick w) !! name).
  - exists false. eexists. split; [reflexivity|]. cbn. apply locks_tick.
  - exists true. eexists. split; [reflexivity|]. cbn. now rewrite locks_tick.
Qed.

Lemma ofstream_open_effect (name : string) (w : world) :
  exists is_open w', ofstream_open name w = (Ok is_open, w') /\ locks w' = locks w.
Proof.
  unfold ofstream_open. destruct (fs (tick w) !! name) as [f|]; [destruct (f_writable f)|];
    eexists _, _; (split; [reflexivity|]); cbn; apply locks_tick.
Qed.

Lemma ofstream_write_effect (name text : string) (w : world) :
  exists w', ofstream_write name text w = (Ok tt, w') /\ locks w' = locks w.
Proof.
  unfold ofstream_write. eexists. split; [reflexivity|].
  destruct (fs (tick w) !! name); cbn; apply locks_tick.
Qed.

Lemma ofstream_close_effect (name : string) (w : world) :
  exists w', ofstream_close name w = (Ok tt, w') /\ locks w' = locks w.
Proof. unfold ofstream_close. eexists. split; [reflexivity|]. cbn. apply locks_tick. Qed.

Lemma exclusive_to_shared_lock_effect (fd : string) (w : world) :
  exists w',
    exclusive_to_shared_lock fd w = (Ok tt, w')
    /\ forall m, m <> fd -> locks w' !! m = locks w !! m.
Proof.
  unfold exclusive_to_shared_lock. eexists. split; [reflexivity|]. cbn.
  rewrite locks_tick. intros m Hm.
  destruct (locks w !! fd) as [[]|]; try reflexivity.
  apply lookup_insert_ne. congruence.
Qed.

Lemma update_cache_info_effect (name : string) (w : world) :
  exists total w', update_cache_info name w = (Ok total, w') /\ locks w' = locks w.
Proof.
  unfold update_cache_info. eexists _, _. split; [reflexivity|]. cbn. apply locks_tick.
Qed.

Lemma update_and_purge_effect (name : string) (w : world) :
  exists w', update_and_purge name w = (Ok tt, w') /\ locks w' = locks w.
Proof.
  unfold update_and_purge. destruct (purge_loop _ _ _) as [total files].
  eexists. split; [reflexivity|]. cbn. apply locks_tick.
Qed.

Lemma serialize_vars_locks (dds : DDS) (name : string) (vs : list BaseType) :
  forall (w : world) (r : result unit) (w' : world),
    serialize_vars vs dds name w = (r, w') -> locks w' = locks w.
Proof.
  induction vs as [|v vs IH]; intros w r w' Hrun; cbn in Hrun.
  - injection Hrun as _ <-. reflexivity.
  - unfold bind at 1 in Hrun. destruct (send_p v).
    + unfold bind at 1, lift in Hrun. destruct (serialize v dds false) as [bytes|e].
      * destruct (ofstream_write_effect name bytes w) as (w1 & Hw & Hl). rewrite Hw in Hrun.
        rewrite (IH _ _ _ Hrun). exact Hl.
      * injection Hrun as _ <-. reflexivity.
    + unfold ret at 1 in Hrun. apply (IH _ _ _ Hrun).
Qed.

(** A [try] block that completes has unlocked the entry and touched no
    other lock. *)
Lemma write_dataset_to_cache_try_locks (dds : DDS) (resource_id func_ce name : string)
  (w : world) (r : option DDS) (w' : world) :
  write_dataset_to_cache_try dds resource_id func_ce name w = (Ok r, w') ->
  locks w' !! name = None /\ forall m, m <> name -> locks w' !! m = locks w !! m.
Proof.
  unfold write_dataset_to_cache_try. intros Hrun.
  destruct (ofstream_write_effect name resource_id w) as (w1 & Hw1 & Hl1).
  rewrite (bind_Ok _ _ _ _ _ Hw1) in Hrun.
  destruct (ofstream_write_effect name endl w1) as (w2 & Hw2 & Hl2).
  rewrite (bind_Ok _ _ _ _ _ Hw2) in Hrun.
  unfold bind at 1, lift at 1 in Hrun.
  destruct (parse_constraint func_ce dds) as [[func_eval dds1]|e]; [|discriminate].
  unfold bind at 1, lift at 1 in Hrun.
  destruct (eval_function_clauses func_eval dds1) as [[fdds dds2]|e]; [|discriminate].
  unfold bind at 1, lift at 1 in Hrun.
  destruct (print_xml_writer dds2 true "") as [xml|e]; [|discriminate].
  destruct (ofstream_write_effect name xml w2) as (w3 & Hw3 & Hl3).
  rewrite (bind_Ok _ _ _ _ _ Hw3) in Hrun.
  destruct (ofstream_write_effect name DATA_MARK w3) as (w4 & Hw4 & Hl4).
  rewrite (bind_Ok _ _ _ _ _ Hw4) in Hrun.
  destruct (ofstream_write_effect name endl w4) as (w5 & Hw5 & Hl5).
  rewrite (bind_Ok _ _ _ _ _ Hw5) in Hrun.
  apply bind_inv_Ok in Hrun as ([] & w6 & Hser & Hrun).
  pose proof (serialize_vars_locks _ _ _ _ _ _ Hser) as Hl6.
  destruct (exclusive_to_shared_lock_effect name w6) as (w7 & Hw7 & Hl7).
  rewrite (bind_Ok _ _ _ _ _ Hw7) in Hrun.
  destruct (update_cache_info_effect name w7) as (total & w8 & Hw8 & Hl8).
  rewrite (bind_Ok _ _ _ _ _ Hw8) in Hrun.
  assert (Hpurge : exists w9,
             (if cache_too_big total then update_and_purge name else ret tt) w8 = (Ok tt, w9)
             /\ locks w9 = locks w8).
  { destruct (cache_too_big total); [apply update_and_purge_effect|].
    exists w8. split; reflexivity. }
  destruct Hpurge as (w9 & Hw9 & Hl9). rewrite (bind_Ok _ _ _ _ _ Hw9) in Hrun.
  destruct (unlock_and_close_effect name w9) as (w10 & Hw10 & _ & Hl10).
  rewrite (bind_Ok _ _ _ _ _ Hw10) in Hrun. injection Hrun as _ <-.
  rewrite Hl10. split; [apply lookup_delete_eq|].
  intros m Hm. rewrite lookup_delete_ne by congruence.
  rewrite Hl9, Hl8, (Hl7 m Hm), Hl6, Hl5, Hl4, Hl3, Hl2, Hl1. reflexivity.
Qed.

Lemma write_dataset_to_cache_locks (dds : DDS) (resource_id func_ce name : string)
  (w : world) (r : option DDS) (w' : world) :
  write_dataset_to_cache dds resource_id func_ce name w = (Ok r, w') ->
  forall m, locks w !! m = None -> locks w' !! m = None.
Proof.
  unfold write_dataset_to_cache. intros Hrun m Hm.
  destruct (create_and_lock_effect name w) as (created & w1 & Hc & Hl1).
  rewrite (bind_Ok _ _ _ _ _ Hc) in Hrun. destruct created.
  2:{ injection Hrun as _ <-. rewrite Hl1. exact Hm. }
  destruct (ofstream_open_effect name w1) as (is_open & w2 & Ho & Hl2).
  rewrite (bind_Ok _ _ _ _ _ Ho) in Hrun.
  destruct is_open; cbn [negb] in Hrun; [|discriminate].
  apply bind_inv_Ok in Hrun as (r' & w3 & Htry & Hrun).
  apply try_catch_all_inv_Ok in Htry.
  destruct (write_dataset_to_cache_try_locks _ _ _ _ _ _ _ Htry) as [Hn Hoff].
  destruct (ofstream_close_effect name w3) as (w4 & Hcl & Hl4).
  rewrite (bind_Ok _ _ _ _ _ Hcl) in Hrun. injection Hrun as _ <-.
  rewrite Hl4. destruct (decide (m = name)) as [->|Hne]; [exact Hn|].
  rewrite (Hoff m Hne), Hl2, Hl1. rewrite lookup_insert_ne by congruence. exact Hm.
Qed.

(** X7. Whenever [get_or_cache_dataset] returns, with a dataset or with
    null, in any state of the cache and whatever other processes do, it
    holds no lock it did not hold before: every lock it took on the way
    has been released. *)
Theorem get_or_cache_dataset_releases_locks (dds : DDS) (constraint : string) (w : world)
  (r : option DDS) (w' : world) :
  get_or_cache_dataset dds constraint w = (Ok r, w') ->
  forall m, locks w !! m = None -> locks w' !! m = None.
Proof.
  unfold get_or_cache_dataset. intros Hrun m Hm.
  apply bind_inv_Ok in Hrun as ([r1 n1] & w1 & Hp1 & Hrun).
  destruct (load_from_cache_loop_shape _ _ _ _ _ _ _ Hp1) as (_ & _ & _ & _ & Hs1).
  destruct r1 as [d1|].
  { injection Hrun as _ <-. apply Hs1, Hm. }
  destruct Hs1 as [_ Hl1].
  apply bind_inv_Ok in Hrun as (r2 & w2 & Hwrite & Hrun).
  pose proof (write_dataset_to_cache_locks _ _ _ _ _ _ _ Hwrite m (Hl1 m Hm)) as Hl2.
  destruct r2 as [d2|].
  { injection Hrun as _ <-. exact Hl2. }
  apply bind_inv_Ok in Hrun as ([r3 n3] & w3 & Hp3 & Hrun).
  destruct (load_from_cache_loop_shape _ _ _ _ _ _ _ Hp3) as (_ & _ & _ & _ & Hs3).
  destruct r3 as [d3|]; injection Hrun as _ <-; apply Hs3, Hl2.
Qed.

(** ** A write in which a collaborator raises *)

Lemma ofstream_write_frame (name text : string) (w : world) :
  quiet w ->
  exists w',
    ofstream_write name text w = (Ok tt, w')
    /\ quiet w' /\ delete name (fs w') = delete name (fs w)
    /\ cache_info w' = cache_info w /\ locks w' = locks w.
Proof.
  intros Hq. unfold ofstream_write. rewrite (tick_quiet w Hq). cbn.
  eexists. split; [reflexivity|].
  destruct (fs w !! name) as [f|]; cbn; repeat split; try reflexivity.
  apply delete_insert_eq.
Qed.

Lemma serialize_vars_frame (dds : DDS) (name : string) (vs : list BaseType) :
  forall (w : world) (r : result unit) (w' : world),
    quiet w ->
    serialize_vars vs dds name w = (r, w') ->
    quiet w' /\ delete name (fs w') = delete name (fs w)
    /\ cache_info w' = cache_info w /\ locks w' = locks w.
Proof.
  induction vs as [|v vs IH]; intros w r w' Hq Hrun; cbn in Hrun.
  - injection Hrun as _ <-. auto.
  - unfold bind at 1 in Hrun. destruct (send_p v).
    + unfold bind at 1, lift in Hrun. destruct (serialize v dds false) as [bytes|e].
      * destruct (ofstream_write_frame name bytes w Hq) as (w1 & Hw & Hq1 & Hf1 & Hc1 & Hl1).
        rewrite Hw in Hrun.
        destruct (IH _ _ _ Hq1 Hrun) as (Hq' & Hf' & Hc' & Hl').
        rewrite Hf', Hc', Hl'. auto.
      * injection Hrun as _ <-. auto.
    + unfold ret at 1 in Hrun. apply (IH _ _ _ Hq Hrun).
Qed.

(** When the [try] block throws it has only written to the entry. *)
Lemma write_dataset_to_cache_try_frame (dds : DDS) (resource_id func_ce name : string)
  (w : world) (e : exn) (w' : world) :
  quiet w ->
  write_dataset_to_cache_try dds resource_id func_ce name w = (Throw e, w') ->
  quiet w' /\ delete name (fs w') = delete name (fs w)
  /\ cache_info w' = cache_info w /\ locks w' = locks w.
Proof.
  unfold write_dataset_to_cache_try. intros Hq Hrun.
  destruct (ofstream_write_frame name resource_id w Hq) as (w1 & Hw1 & Hq1 & Hf1 & Hc1 & Hl1).
  rewrite (bind_Ok _ _ _ _ _ Hw1) in Hrun.
  destruct (ofstream_write_frame name endl w1 Hq1) as (w2 & Hw2 & Hq2 & Hf2 & Hc2 & Hl2).
  rewrite (bind_Ok _ _ _ _ _ Hw2) in Hrun.
  assert (Hfr2 : quiet w2 /\ delete name (fs w2) = delete name (fs w)
                 /\ cache_info w2 = cache_info w /\ locks w2 = locks w)
    by (rewrite Hf2, Hc2, Hl2; auto).
  unfold bind at 1, lift at 1 in Hrun.
  destruct (parse_constraint func_ce dds) as [[func_eval dds1]|e0];
    [|injection Hrun as _ <-; exact Hfr2].
  unfold bind at 1, lift at 1 in Hrun.
  destruct (eval_function_clauses func_eval dds1) as [[fdds dds2]|e0];
    [|injection Hrun as _ <-; exact Hfr2].
  unfold bind at 1, lift at 1 in Hrun.
  destruct (print_xml_writer dds2 true "") as [xml|e0];
    [|injection Hrun as _ <-; exact Hfr2].
  destruct (ofstream_write_frame name xml w2 Hq2) as (w3 & Hw3 & Hq3 & Hf3 & Hc3 & Hl3).
  rewrite (bind_Ok _ _ _ _ _ Hw3) in Hrun.
  destruct (ofstream_write_frame name DATA_MARK w3 Hq3) as (w4 & Hw4 & Hq4 & Hf4 & Hc4 & Hl4).
  rewrite (bind_Ok _ _ _ _ _ Hw4) in Hrun.
  destruct (ofstream_write_frame name endl w4 Hq4) as (w5 & Hw5 & Hq5 & Hf5 & Hc5 & Hl5).
  rewrite (bind_Ok _ _ _ _ _ Hw5) in Hrun.
  apply bind_inv_Throw in Hrun as [Hser|([] & w6 & _ & Hrun)].
  { destruct (serialize_vars_frame _ _ _ _ _ _ Hq5 Hser) as (Hq6 & Hf6 & Hc6 & Hl6).
    rewrite Hf6, Hc6, Hl6, Hf5, Hc5, Hl5, Hf4, Hc4, Hl4, Hf3, Hc3, Hl3. tauto. }
  exfalso.
  destruct (exclusive_to_shared_lock_effect name w6) as (w7 & Hw7 & _).
  rewrite (bind_Ok _ _ _ _ _ Hw7) in Hrun.
  destruct (update_cache_info_effect name w7) as (total & w8 & Hw8 & _).
  rewrite (bind_Ok _ _ _ _ _ Hw8) in Hrun.
  assert (Hpurge : exists w9,
             (if cache_too_big total then update_and_purge name else ret tt) w8 = (Ok tt, w9)).
  { destruct (cache_too_big total).
    - destruct (update_and_purge_effect name w8) as (w9 & Hw9 & _). eauto.
    - exists w8. reflexivity. }
  destruct Hpurge as (w9 & Hw9). rewrite (bind_Ok _ _ _ _ _ Hw9) in Hrun.
  destruct (unlock_and_close_effect name w9) as (w10 & Hw10 & _).
  rewrite (bind_Ok _ _ _ _ _ Hw10) in Hrun. discriminate.
Qed.

Lemma write_dataset_to_cache_catch_frame (name : string) (w : world) :
  quiet w ->
  exists w',
    write_dataset_to_cache_catch name w = (Ok tt, w')
    /\ fs w' = delete name (fs w)
    /\ cache_info w' = cache_info w /\ locks w' = delete name (locks w).
Proof.
  intros Hq.
  unfold write_dataset_to_cache_catch, bind, ofstream_close, purge_file, unlock_and_close.
  eexists. split; [reflexivity|]. rewrite (tick_quiet w Hq). cbn. auto.
Qed.

Lemma serialize_vars_raises (dds : DDS) (name : string) (vs : list BaseType) (e : exn) :
  payload_of vs dds = Throw e ->
  forall w, exists w', serialize_vars vs dds name w = (Throw e, w').
Proof.
  induction vs as [|v vs IH]; intros Hp w; cbn in Hp |- *; [discriminate|].
  unfold bind at 1. destruct (send_p v).
  - unfold bind at 1, lift. destruct (serialize v dds false) as [bytes|e0].
    + destruct (payload_of vs dds) as [p|e1]; [discriminate|]. injection Hp as ->.
      destruct (ofstream_write_effect name bytes w) as (w1 & Hw & _). rewrite Hw.
      apply (IH eq_refl).
    + injection Hp as ->. eexists. reflexivity.
  - unfold ret at 1. apply (IH Hp).
Qed.

(** When a collaborator raises, the [try] block throws what it raised. *)
Lemma write_dataset_to_cache_try_raises (dds : DDS) (resource_id func_ce name : string)
  (e : exn) :
  evaluated dds func_ce = Throw e ->
  forall w, exists w', write_dataset_to_cache_try dds resource_id func_ce name w = (Throw e, w').
Proof.
  unfold evaluated. intros Hraised w. unfold write_dataset_to_cache_try.
  destruct (ofstream_write_effect name resource_id w) as (w1 & Hw1 & _).
  rewrite (bind_Ok _ _ _ _ _ Hw1).
  destruct (ofstream_write_effect name endl w1) as (w2 & Hw2 & _).
  rewrite (bind_Ok _ _ _ _ _ Hw2).
  unfold bind at 1, lift at 1.
  destruct (parse_constraint func_ce dds) as [[func_eval dds1]|e0];
    [|injection Hraised as ->; eexists; reflexivity].
  unfold bind at 1, lift at 1.
  destruct (eval_function_clauses func_eval dds1) as [[fdds dds2]|e0];
    [|injection Hraised as ->; eexists; reflexivity].
  unfold bind at 1, lift at 1.
  destruct (print_xml_writer dds2 true "") as [xml|e0];
    [|injection Hraised as ->; eexists; reflexivity].
  destruct (ofstream_write_effect name xml w2) as (w3 & Hw3 & _).
  rewrite (bind_Ok _ _ _ _ _ Hw3).
  destruct (ofstream_write_effect name DATA_MARK w3) as (w4 & Hw4 & _).
  rewrite (bind_Ok _ _ _ _ _ Hw4).
  destruct (ofstream_write_effect name endl w4) as (w5 & Hw5 & _).
  rewrite (bind_Ok _ _ _ _ _ Hw5).
  destruct (payload_of (vars dds2) dds2) as [p|e0] eqn:Hpl; [discriminate|].
  injection Hraised as ->.
  destruct (serialize_vars_raises dds2 name (vars dds2) e Hpl w5) as (w6 & Hser).
  exists w6. apply bind_Throw. exact Hser.
Qed.

(** X8. With no other process active, once [create_and_lock] has
    succeeded and the output stream is open, if the constraint parser, the
    function clauses, the descriptor writer or the serialization of a
    variable raises an exception, the first raised is what
    [write_dataset_to_cache] throws, and the cache is left as it was
    found: every file is as before the call, the new entry being gone, the
    recorded total has not been charged, and the lock on the slot is
    released. *)
Theorem failed_evaluation_leaves_cache (dds : DDS) (resource_id func_ce name : string)
  (w w1 w2 : world) (e : exn) :
  quiet w ->
  create_and_lock name w = (Ok true, w1) ->
  ofstream_open name w1 = (Ok true, w2) ->
  evaluated dds func_ce = Throw e ->
  exists w',
    write_dataset_to_cache dds resource_id func_ce name w = (Throw e, w')
    /\ fs w' = fs w
    /\ cache_info w' = cache_info w
    /\ locks w' = delete name (locks w).
Proof.
  intros Hq Hc Ho Hraised.
  destruct (create_and_lock_quiet name w true w1 Hq Hc) as (Hfree & Hq1 & Hfs1).
  assert (Hw1 : cache_info w1 = cache_info w
                /\ locks w1 = <[name := Exclusive]> (locks w)).
  { unfold create_and_lock in Hc. rewrite (tick_quiet w Hq) in Hc. cbn in Hc.
    rewrite Hfree in Hc. injection Hc as <-. split; reflexivity. }
  destruct Hw1 as [Hc1 Hl1].
  assert (Hw2 : quiet w2 /\ delete name (fs w2) = delete name (fs w1)
                /\ cache_info w2 = cache_info w1 /\ locks w2 = locks w1).
  { assert (Hnew : fs w1 !! name = Some (mk_file "" (now w + 1) (now w + 1) true))
      by (rewrite Hfs1; apply lookup_insert_eq).
    unfold ofstream_open in Ho. rewrite (tick_quiet w1 Hq1) in Ho. cbn in Ho.
    rewrite Hnew in Ho. cbn in Ho. injection Ho as <-. cbn.
    repeat split. apply delete_insert_eq. }
  destruct Hw2 as (Hq2 & Hfs2 & Hc2 & Hl2).
  destruct (write_dataset_to_cache_try_raises dds resource_id func_ce name e Hraised w2)
    as (w3 & Htry).
  destruct (write_dataset_to_cache_try_frame _ _ _ _ _ _ _ Hq2 Htry)
    as (Hq3 & Hfs3 & Hc3 & Hl3).
  destruct (write_dataset_to_cache_catch_frame name w3 Hq3) as (w4 & Hcatch & Hfs4 & Hc4 & Hl4).
  exists w4. split; [|split; [|split]].
  - unfold write_dataset_to_cache.
    rewrite (bind_Ok _ _ _ _ _ Hc). rewrite (bind_Ok _ _ _ _ _ Ho). cbn [negb].
    apply bind_Throw. unfold try_catch_all. rewrite Htry, Hcatch. reflexivity.
  - rewrite Hfs4, Hfs3, Hfs2, Hfs1, delete_insert_eq. apply delete_id, Hfree.
  - congruence.
  - rewrite Hl4, Hl3, Hl2, Hl1. apply delete_insert_eq.
Qed.

(** ** The exceptions of [read_cached_data] *)

(** X10. [read_cached_data] throws in three ways only: a libdap [Error]
    raised while the descriptor is parsed leaves as a [BESInternalError]
    with the same message; any other exception of the parser leaves as it
    is; and an exception raised while a variable is deserialized leaves as
    it is, a libdap [Error] included. *)
Theorem read_cached_data_throws (cached_data : istream) (e : exn) :
  read_cached_data cached_data = Throw e
  <-> (exists msg,
         intern_stream cached_data (mk_DDS "" []) DATA_MARK = Throw (libdap_Error msg)
         /\ e = BESInternalError msg)
      \/ (intern_stream cached_data (mk_DDS "" []) DATA_MARK = Throw e
          /\ forall msg, e <> libdap_Error msg)
      \/ (exists d s,
            intern_stream cached_data (mk_DDS "" []) DATA_MARK = Ok (d, s)
            /\ deserialize_vars (vars d) s = Throw e).
Proof.
  unfold read_cached_data.
  destruct (intern_stream cached_data (mk_DDS "" []) DATA_MARK) as [[d s]|e0].
  - destruct (deserialize_vars (vars d) s) as [[vs s']|e1] eqn:Hd.
    + split; [discriminate|].
      intros [(msg & Hi & _)|[(Hi & _)|(d' & s'' & Hi & Hd')]]; try discriminate.
      injection Hi as <- <-. congruence.
    + split.
      * intros [= <-]. right. right. eauto.
      * intros [(msg & Hi & _)|[(Hi & _)|(d' & s'' & Hi & Hd')]]; try discriminate.
        injection Hi as <- <-. congruence.
  - destruct e0 as [msg|msg|what].
    + split.
      * intros [= <-]. left. eauto.
      * intros [(msg' & Hi & ->)|[(Hi & Hn)|(d' & s'' & Hi & _)]].
        -- injection Hi as <-. reflexivity.
        -- injection Hi as <-. exfalso. apply (Hn msg). reflexivity.
        -- discriminate.
    + split.
      * intros [= <-]. right. left. split; [reflexivity | discriminate].
      * intros [(msg' & Hi & ->)|[(Hi & Hn)|(d' & s'' & Hi & _)]].
        -- discriminate.
        -- injection Hi as <-. reflexivity.
        -- discriminate.
    + split.
      * intros [= <-]. right. left. split; [reflexivity | discriminate].
      * intros [(msg' & Hi & ->)|[(Hi & Hn)|(d' & s'' & Hi & _)]].
        -- discriminate.
        -- injection Hi as <-. reflexivity.
        -- discriminate.
Qed.

(** ** The files a request changes *)






















(** ** The calls of a write *)

Lemma create_and_lock_log (name : string) (w : world) (created : bool) (w' : world) :
  create_and_lock name w = (Ok created, w') ->
  trace w' = (trace w ++ [create_and_lock_call name created])%list.
Proof.
  unfold create_and_lock.
  destruct (fs (tick w) !! name); intros Hrun; injection Hrun as <- <-; cbn;
    rewrite trace_tick; reflexivity.
Qed.

Lemma ofstream_open_log (name : string) (w : world) (is_open : bool) (w' : world) :
  ofstream_open name w = (Ok is_open, w') ->
  trace w' = (trace w ++ [ofstream_open_call name is_open])%list.
Proof.
  unfold ofstream_open.
  destruct (fs (tick w) !! name) as [f|]; [destruct (f_writable f)|];
    intros Hrun; injection Hrun as <- <-; cbn; rewrite trace_tick; reflexivity.
Qed.

Lemma ofstream_write_log (name text : string) (w : world) :
  exists w',
    ofstream_write name text w = (Ok tt, w')
    /\ trace w' = (trace w ++ [ofstream_write_call name text])%list.
Proof.
  unfold ofstream_write. eexists. split; [reflexivity|].
  destruct (fs (tick w) !! name); cbn; rewrite trace_tick; reflexivity.
Qed.

Lemma ofstream_close_log (name : string) (w : world) :
  exists w',
    ofstream_close name w = (Ok tt, w')
    /\ trace w' = (trace w ++ [ofstream_close_call name])%list.
Proof.
  unfold ofstream_close. eexists. split; [reflexivity|]. cbn. rewrite trace_tick. reflexivity.
Qed.

Lemma exclusive_to_shared_lock_log (fd : string) (w : world) :
  exists w',
    exclusive_to_shared_lock fd w = (Ok tt, w')
    /\ trace w' = (trace w ++ [exclusive_to_shared_lock_call fd])%list.
Proof.
  unfold exclusive_to_shared_lock. eexists. split; [reflexivity|]. cbn.
  rewrite trace_tick. reflexivity.
Qed.

Lemma update_cache_info_log (name : string) (w : world) :
  exists total w',
    update_cache_info name w = (Ok total, w')
    /\ trace w' = (trace w ++ [update_cache_info_call name])%list.
Proof.
  unfold update_cache_info. eexists _, _. split; [reflexivity|]. cbn.
  rewrite trace_tick. reflexivity.
Qed.

Lemma update_and_purge_log (name : string) (w : world) :
  exists w',
    update_and_purge name w = (Ok tt, w')
    /\ trace w' = (trace w ++ [update_and_purge_call name])%list.
Proof.
  unfold update_and_purge. destruct (purge_loop _ _ _) as [total files].
  eexists. split; [reflexivity|]. cbn. rewrite trace_tick. reflexivity.
Qed.

(** The serialize loop writes one chunk for each variable marked to be
    sent, in order. *)
Lemma serialize_vars_log (dds : DDS) (name : string) (vs : list BaseType) :
  forall (w w' : world),
    serialize_vars vs dds name w = (Ok tt, w') ->
    exists chunks,
      Forall2 (fun v bytes => serialize v dds false = Ok bytes) (List.filter send_p vs) chunks
      /\ trace w' = (trace w ++ map (ofstream_write_call name) chunks)%list.
Proof.
  induction vs as [|v vs IH]; intros w w' Hrun; cbn in Hrun.
  - injection Hrun as <-. exists []. split; [constructor|]. cbn. now rewrite app_nil_r.
  - unfold bind at 1 in Hrun. cbn [List.filter]. destruct (send_p v).
    + unfold bind at 1, lift in Hrun.
      destruct (serialize v dds false) as [bytes|e] eqn:Hs; [|discriminate].
      destruct (ofstream_write_log name bytes w) as (w1 & Hw & Ht1). rewrite Hw in Hrun.
      destruct (IH _ _ Hrun) as (chunks & Hall & Ht).
      exists (bytes :: chunks). split; [constructor; assumption|].
      rewrite Ht, Ht1, <- app_assoc. reflexivity.
    + unfold ret at 1 in Hrun. apply (IH _ _ Hrun).
Qed.

(** X12. A call of [write_dataset_to_cache] that returns a dataset has
    made, whatever other processes do, exactly these calls in this order:
    the entry is created under its lock and opened; the identifier line is
    written, then the descriptor of the dataset the clauses were evaluated
    on, the data mark line and one chunk for each of that dataset's
    variables marked to be sent, the chunk being the serialization of the
    variable; the lock is made shared before the total is updated; a
    purge, if any, comes next; the entry is unlocked and the stream
    closed. *)
Theorem write_dataset_to_cache_calls (dds : DDS) (resource_id func_ce name : string)
  (w : world) (fdds : DDS) (w' : world) :
  write_dataset_to_cache dds resource_id func_ce name w = (Ok (Some fdds), w') ->
  exists func_eval dds1 dds2 xml chunks purge,
    parse_constraint func_ce dds = Ok (func_eval, dds1)
    /\ eval_function_clauses func_eval dds1 = Ok (fdds, dds2)
    /\ print_xml_writer dds2 true "" = Ok xml
    /\ Forall2 (fun v bytes => serialize v dds2 false = Ok bytes)
         (List.filter send_p (vars dds2)) chunks
    /\ (purge = [] \/ purge = [update_and_purge_call name])
    /\ calls_since w w' = write_calls name resource_id xml chunks purge.
Proof.
  unfold write_dataset_to_cache. intros Hrun.
  apply bind_inv_Ok in Hrun as (created & w1 & Hc & Hrun).
  destruct created; [|discriminate].
  apply create_and_lock_log in Hc as Ht1.
  apply bind_inv_Ok in Hrun as (is_open & w2 & Ho & Hrun).
  destruct is_open; cbn [negb] in Hrun; [|discriminate].
  apply ofstream_open_log in Ho as Ht2.
  apply bind_inv_Ok in Hrun as (r & w3 & Htry & Hrun).
  apply try_catch_all_inv_Ok in Htry.
  destruct (ofstream_close_log name w3) as (w4 & Hcl & Ht4).
  rewrite (bind_Ok _ _ _ _ _ Hcl) in Hrun. injection Hrun as -> <-.
  unfold write_dataset_to_cache_try in Htry.
  destruct (ofstream_write_log name resource_id w2) as (a1 & Ha1 & Hta1).
  rewrite (bind_Ok _ _ _ _ _ Ha1) in Htry.
  destruct (ofstream_write_log name endl a1) as (a2 & Ha2 & Hta2).
  rewrite (bind_Ok _ _ _ _ _ Ha2) in Htry.
  unfold bind at 1, lift at 1 in Htry.
  destruct (parse_constraint func_ce dds) as [[func_eval dds1]|e] eqn:Hparse; [|discriminate].
  unfold bind at 1, lift at 1 in Htry.
  destruct (eval_function_clauses func_eval dds1) as [[fdds' dds2]|e] eqn:Heval;
    [|discriminate].
  unfold bind at 1, lift at 1 in Htry.
  destruct (print_xml_writer dds2 true "") as [xml|e] eqn:Hxml; [|discriminate].
  destruct (ofstream_write_log name xml a2) as (a3 & Ha3 & Hta3).
  rewrite (bind_Ok _ _ _ _ _ Ha3) in Htry.
  destruct (ofstream_write_log name DATA_MARK a3) as (a4 & Ha4 & Hta4).
  rewrite (bind_Ok _ _ _ _ _ Ha4) in Htry.
  destruct (ofstream_write_log name endl a4) as (a5 & Ha5 & Hta5).
  rewrite (bind_Ok _ _ _ _ _ Ha5) in Htry.
  apply bind_inv_Ok in Htry as ([] & a6 & Hser & Htry).
  destruct (serialize_vars_log _ _ _ _ _ Hser) as (chunks & Hall & Hta6).
  destruct (exclusive_to_shared_lock_log name a6) as (a7 & Ha7 & Hta7).
  rewrite (bind_Ok _ _ _ _ _ Ha7) in Htry.
  destruct (update_cache_info_log name a7) as (total & a8 & Ha8 & Hta8).
  rewrite (bind_Ok _ _ _ _ _ Ha8) in Htry.
  assert (Hpurge : exists purge a9,
             (if cache_too_big total then update_and_purge name else ret tt) a8 = (Ok tt, a9)
             /\ (purge = [] \/ purge = [update_and_purge_call name])
             /\ trace a9 = (trace a8 ++ purge)%list).
  { destruct (cache_too_big total).
    - destruct (update_and_purge_log name a8) as (a9 & Ha9 & Hta9).
      exists [update_and_purge_call name], a9. auto.
    - exists [], a8. rewrite app_nil_r. auto. }
  destruct Hpurge as (purge & a9 & Ha9 & Hp & Hta9).
  rewrite (bind_Ok _ _ _ _ _ Ha9) in Htry.
  destruct (unlock_and_close_effect name a9) as (a10 & Ha10 & Hta10 & _).
  rewrite (bind_Ok _ _ _ _ _ Ha10) in Htry. injection Htry as <- <-.
  exists func_eval, dds1, dds2, xml, chunks, purge.
  repeat (split; [first [reflexivity | assumption]|]).
  unfold calls_since, write_calls.
  rewrite Ht4, Hta10, Hta9, Hta8, Hta7, Hta6, Hta5, Hta4, Hta3, Hta2, Hta1, Ht2, Ht1.
  rewrite <- !app_assoc. apply drop_app_length.
Qed.

End MoreFacts.

(** ** The singleton *)

Section SingletonFacts.
Context {cache : Type}.
Variable construct : string -> string -> N -> cache + Singleton.raised.
Variable extract_unsigned_long : string -> N -> N.
Variable lowercase : string -> string.

(** A call returns the pointer it leaves in [d_instance]. *)
Lemma serve_returns_state (q : Singleton.request) (d : option cache) (r : option cache)
  (d' : option cache) :
  Singleton.serve construct extract_unsigned_long lowercase q d = (Singleton.returned r, d') ->
  r = d'.
Proof.
  destruct q; cbn; unfold Singleton.get_instance, Singleton.get_instance_default;
    destruct d; try (intros [= <- <-]; reflexivity);
    destruct (Singleton.dir_exists _ _); try (intros [= <- <-]; reflexivity);
    destruct (construct _ _ _) as [c|[msg|what]]; intros [= <- <-] || intros [=]; reflexivity.
Qed.

(** Once the pointer is set, no call changes it. *)
Lemma serve_all_set (qs : list Singleton.request) (c : cache) :
  Singleton.serve_all construct extract_unsigned_long lowercase qs (Some c)
  = (map (fun _ => Singleton.returned (Some c)) qs, Some c).
Proof.
  induction qs as [|q qs IH]; [reflexivity|].
  cbn [Singleton.serve_all].
  replace (Singleton.serve construct extract_unsigned_long lowercase q (Some c))
    with (Singleton.returned (Some c), Some c) by (destruct q; reflexivity).
  rewrite IH. reflexivity.
Qed.

(** X13. In any sequence of calls of [get_instance], of either overload
    and with any arguments, configuration and directories, every call that
    returns an object returns the same one: the object made by the first
    call that succeeded is never replaced, and it is the pointer at the
    end. *)
Theorem get_instance_singleton (qs : list Singleton.request) (d : option cache)
  (i j : nat) (c c' : cache) :
  (Singleton.serve_all construct extract_unsigned_long lowercase qs d).1 !! i
  = Some (Singleton.returned (Some c)) ->
  (Singleton.serve_all construct extract_unsigned_long lowercase qs d).1 !! j
  = Some (Singleton.returned (Some c')) ->
  c = c' /\ (Singleton.serve_all construct extract_unsigned_long lowercase qs d).2 = Some c.
Proof.
  assert (Hset : forall qs c0 i c,
             (Singleton.serve_all construct extract_unsigned_long lowercase qs (Some c0)).1 !! i
             = Some (Singleton.returned (Some c)) -> c = c0).
  { intros qs0 c0 i0 c1. rewrite serve_all_set. cbn [fst]. rewrite list_lookup_fmap.
    destruct (qs0 !! i0); cbn; congruence. }
  revert d i j. induction qs as [|q qs IH]; intros d i j; [discriminate|].
  cbn [Singleton.serve_all].
  destruct (Singleton.serve construct extract_unsigned_long lowercase q d) as [o d1] eqn:Hq.
  destruct (Singleton.serve_all construct extract_unsigned_long lowercase qs d1)
    as [os d2] eqn:Hqs.
  cbn [fst snd].
  assert (Hhead : forall c1, o = Singleton.returned (Some c1) ->
            forall k c2, os !! k = Some (Singleton.returned (Some c2)) -> c2 = c1).
  { intros c1 -> k c2 Hk. apply serve_returns_state in Hq as <-.
    apply (Hset qs c1 k c2). rewrite Hqs. exact Hk. }
  assert (Hend : forall c1, o = Singleton.returned (Some c1) -> d2 = Some c1).
  { intros c1 ->. apply serve_returns_state in Hq as <-.
    rewrite serve_all_set in Hqs. injection Hqs as _ <-. reflexivity. }
  destruct i as [|i], j as [|j]; cbn [lookup list_lookup]; intros Hi Hj.
  - injection Hi as ->. injection Hj as [= ->]. split; [reflexivity|]. now apply Hend.
  - injection Hi as ->. split; [|now apply Hend]. symmetry. apply (Hhead c eq_refl j c' Hj).
  - injection Hj as ->. split; [apply (Hhead c' eq_refl i c Hi)|].
    rewrite (Hhead c' eq_refl i c Hi). now apply Hend.
  - specialize (IH d1 i j). rewrite Hqs in IH. apply IH; assumption.
Qed.

(** X14. [get_instance(cache_dir, prefix, size)] returns null exactly when
    no object exists yet and the directory is missing or the constructor
    raises a [BESError]; it then leaves the pointer null, so that the next
    call tries again. An exception of the constructor that is not a
    [BESError] is the only thing it lets through. *)
Theorem get_instance_failure (dirs : gset string) (cache_dir prefix : string) (size : N)
  (d : option cache) :
  (forall d',
     Singleton.get_instance construct dirs cache_dir prefix size d
     = (Singleton.returned None, d')
     <-> d = None /\ d' = None
         /\ (cache_dir ∉ dirs
             \/ exists msg, construct cache_dir prefix size
                            = inr (Singleton.raised_BESError msg)))
  /\ (forall what d',
        Singleton.get_instance construct dirs cache_dir prefix size d
        = (Singleton.thrown what, d')
        <-> d = None /\ d' = None /\ cache_dir ∈ dirs
            /\ construct cache_dir prefix size = inr (Singleton.raised_other what)).
Proof.
  unfold Singleton.get_instance, Singleton.dir_exists. split.
  - intros d'. destruct d as [c0|].
    { split; [discriminate | intros (? & _); discriminate]. }
    destruct (bool_decide_reflect (cache_dir ∈ dirs)) as [Hin|Hout].
    + destruct (construct cache_dir prefix size) as [c|[msg|what]] eqn:Hc.
      * split; [discriminate|]. intros (_ & _ & [Hn|[msg Hm]]); [contradiction | discriminate].
      * split; [intros [= <-]; eauto 6|]. intros (_ & -> & _). reflexivity.
      * split; [discriminate|]. intros (_ & _ & [Hn|[msg Hm]]); [contradiction | discriminate].
    + split; [intros [= <-]; auto|]. intros (_ & -> & _). reflexivity.
  - intros what d'. destruct d as [c0|].
    { split; [discriminate | intros (? & _); discriminate]. }
    destruct (bool_decide_reflect (cache_dir ∈ dirs)) as [Hin|Hout].
    + destruct (construct cache_dir prefix size) as [c|[msg|what']] eqn:Hc.
      * split; [discriminate|]. intros (_ & _ & _ & ?); discriminate.
      * split; [discriminate|]. intros (_ & _ & _ & ?); discriminate.
      * split; [intros [= <- <-]; auto|]. intros (_ & -> & _ & [= ->]). reflexivity.
    + split; [discriminate|]. intros (_ & _ & ? & _); contradiction.
Qed.

End SingletonFacts.

(** * Further runs *)

Import MoreScenario.

Lemma get_resource_id_inj_witness : filename D = filename D_same /\ C = C.
Proof. apply (get_resource_id_inj D D_same C C); vm_compute; reflexivity. Defined.

(** With a ["#"] in the file name two different requests can share a
    resource identifier. *)
Lemma resource_id_shared :
  get_resource_id (mk_DDS "/data/a#b" []) "f()" = get_resource_id (mk_DDS "/data/a" []) "b#f()".
Proof. reflexivity. Qed.

Lemma read_cached_data_all_or_nothing_witness :
  exists d s vs s',
    intern_stream entry_stream (mk_DDS "" []) DATA_MARK = Ok (d, s)
    /\ deserialize_vars (vars d) s = Ok (vs, s')
    /\ filename (mk_DDS "" [mk_BaseType "u" dods_byte_c true true "7" no_row [];
                            mk_BaseType "s" dods_sequence_c true true "ab" no_row []])
       = filename d
    /\ length [mk_BaseType "u" dods_byte_c true true "7" no_row [];
               mk_BaseType "s" dods_sequence_c true true "ab" no_row []]
       = length (vars d)
    /\ Forall2 same_content vs
         [mk_BaseType "u" dods_byte_c true true "7" no_row [];
          mk_BaseType "s" dods_sequence_c true true "ab" no_row []].
Proof.
  apply (read_cached_data_all_or_nothing entry_stream
           (mk_DDS "" [mk_BaseType "u" dods_byte_c true true "7" no_row [];
                       mk_BaseType "s" dods_sequence_c true true "ab" no_row []])).
  vm_compute; reflexivity.
Defined.

Lemma written_entry_header_witness :
  quiet w0
  /\ exists f,
       fs (write_dataset_to_cache D rid C slot w0).2 !! slot = Some f
       /\ (header f = rid <-> recognisable rid).
Proof.
  split; [reflexivity|].
  apply (written_entry_header D rid C slot w0 function_result);
    [reflexivity | vm_compute; reflexivity].
Defined.

Lemma decode_failure_skips_unlock_witness :
  quiet w_truncated
  /\ collides w_truncated rid' (base_name D C') 0
  /\ header truncated = rid'
  /\ exists w',
       load_from_cache rid' (base_name D C') w_truncated
       = (Throw (BESInternalError "intern_stream: no boundary"), w')
       /\ calls_since w_truncated w'
          = [get_read_lock_call "rc20_0" true; ifstream_open_call "rc20_0";
             unlock_and_close_call "rc20_0";
             get_read_lock_call "rc20_1" true; ifstream_open_call "rc20_1"]
       /\ fs w' = fs w_truncated.
Proof.
  assert (Hc : collides w_truncated rid' (base_name D C') 0).
  { eexists. split; [vm_compute; reflexivity|]. vm_compute. discriminate. }
  split; [reflexivity|]. split; [exact Hc|]. split; [vm_compute; reflexivity|].
  assert (Hcs : forall j, (j < 1)%N -> collides w_truncated rid' (base_name D C') j).
  { intros j Hj. assert (j = 0%N) as -> by lia. exact Hc. }
  exact (decode_failure_skips_unlock rid' (base_name D C') w_truncated 1 truncated
           (BESInternalError "intern_stream: no boundary")
           eq_refl ltac:(unfold max_collisions; lia) Hcs
           ltac:(vm_compute; reflexivity) ltac:(vm_compute; reflexivity)
           ltac:(vm_compute; reflexivity)).
Defined.


Lemma get_or_cache_dataset_releases_locks_witness :
  get_or_cache_dataset D C w0 = (Ok (Some function_result), w_cached)
  /\ locks w0 !! slot = None
  /\ calls_since w0 w_cached
     = get_read_lock_call slot false :: write_calls slot rid ("Bu" +:+ endl) ["7"] []
  /\ locks (create_and_lock slot (load_from_cache rid (base_name D C) w0).2).2 !! slot
     = Some Exclusive
  /\ locks w_cached !! slot = None.
Proof.
  split; [vm_compute; reflexivity|]. split; [vm_compute; reflexivity|].
  split; [vm_compute; reflexivity|]. split; [vm_compute; reflexivity|].
  apply (get_or_cache_dataset_releases_locks D C w0 (Some function_result) w_cached);
    vm_compute; reflexivity.
Defined.

Lemma failed_evaluation_leaves_cache_witness :
  quiet w0
  /\ create_and_lock slot_fail w0 = (Ok true, w_created)
  /\ ofstream_open slot_fail w_created = (Ok true, w_opened)
  /\ evaluated D C_fail = Throw (libdap_Error "fail(): no such function")
  /\ exists w',
       write_dataset_to_cache D rid_fail C_fail slot_fail w0
       = (Throw (libdap_Error "fail(): no such function"), w')
       /\ fs w' = fs w0
       /\ cache_info w' = cache_info w0
       /\ locks w' = delete slot_fail (locks w0).
Proof.
  split; [reflexivity|]. split; [vm_compute; reflexivity|].
  split; [vm_compute; reflexivity|]. split; [vm_compute; reflexivity|].
  apply (failed_evaluation_leaves_cache D rid_fail C_fail slot_fail w0 w_created w_opened
           (libdap_Error "fail(): no such function"));
    [reflexivity | vm_compute; reflexivity | vm_compute; reflexivity | vm_compute; reflexivity].
Defined.

Lemma cached_entry_answers_request_witness :
  quiet w_two
  /\ collides w_two rid' (base_name D C') 0
  /\ exists w',
       get_or_cache_dataset D C' w_two = (Ok (Some (set_filename (filename D) decoded)), w')
       /\ calls_since w_two w'
          = [get_read_lock_call "rc20_0" true; ifstream_open_call "rc20_0";
             unlock_and_close_call "rc20_0";
             get_read_lock_call "rc20_1" true; ifstream_open_call "rc20_1";
             unlock_and_close_call "rc20_1"]
       /\ fs w' = fs w_two.
Proof.
  assert (Hc : collides w_two rid' (base_name D C') 0).
  { eexists. split; [vm_compute; reflexivity|]. vm_compute. discriminate. }
  split; [reflexivity|]. split; [exact Hc|].
  assert (Hcs : forall j, (j < 1)%N -> collides w_two rid' (base_name D C') j).
  { intros j Hj. assert (j = 0%N) as -> by lia. exact Hc. }
  exact (cached_entry_answers_request D C' w_two 1
           (mk_file (entry_text rid' ("Bu" +:+ endl) "7") 1020 1012 true) decoded
           eq_refl ltac:(unfold max_collisions; lia) Hcs
           ltac:(vm_compute; reflexivity) ltac:(vm_compute; reflexivity)
           ltac:(vm_compute; reflexivity)).
Defined.


Lemma write_dataset_to_cache_calls_witness :
  write_dataset_to_cache D rid C slot w0
  = (Ok (Some function_result), (write_dataset_to_cache D rid C slot w0).2)
  /\ exists func_eval dds1 dds2 xml chunks purge,
       parse_constraint C D = Ok (func_eval, dds1)
       /\ eval_function_clauses func_eval dds1 = Ok (function_result, dds2)
       /\ print_xml_writer dds2 true "" = Ok xml
       /\ Forall2 (fun v bytes => serialize v dds2 false = Ok bytes)
            (List.filter send_p (vars dds2)) chunks
       /\ (purge = [] \/ purge = [update_and_purge_call slot])
       /\ calls_since w0 (write_dataset_to_cache D rid C slot w0).2
          = write_calls slot rid xml chunks purge.
Proof.
  split; [vm_compute; reflexivity|].
  apply (write_dataset_to_cache_calls D rid C slot w0 function_result).
  vm_compute; reflexivity.
Defined.

Lemma get_instance_singleton_witness :
  (Singleton.serve_all Singleton.toy_construct Singleton.toy_extract Singleton.toy_lowercase
     Singleton.toy_requests None).1
  = [Singleton.returned None; Singleton.returned None;
     Singleton.returned (Some ("/tmp/", "rc", 20%N));
     Singleton.returned (Some ("/tmp/", "rc", 20%N));
     Singleton.returned (Some ("/tmp/", "rc", 20%N))]
  /\ (Singleton.serve_all Singleton.toy_construct Singleton.toy_extract
        Singleton.toy_lowercase Singleton.toy_requests None).2
     = Some ("/tmp/", "rc", 20%N).
Proof.
  split; [vm_compute; reflexivity|].
  apply (get_instance_singleton Singleton.toy_construct Singleton.toy_extract
           Singleton.toy_lowercase Singleton.toy_requests None 2 4
           ("/tmp/", "rc", 20%N) ("/tmp/", "rc", 20%N));
    vm_compute; reflexivity.
Defined.
